(** * Atakama key server rule engine (atakama/rule_engine.py)

    A shallow embedding of the policy representation and evaluation pipeline:
    the request model, the rule plugin contract, [RuleSet] (AND), [RuleTree]
    (OR), [RuleEngine] (dispatch per request type) and [RuleIdGenerator]
    (content-derived rule identifiers), followed by the properties proved
    about them. *)

From Stdlib Require Import String Ascii List ZArith NArith Lia Bool.
From Stdlib Require Import DecimalString DecimalNat DecimalZ.
From Stdlib Require Import Permutation.
From Stdlib Require DecimalFacts Finite OrderedTypeEx.
Import ListNotations.
Local Open Scope string_scope.
Local Open Scope list_scope.

(** ** Python values

    The values a policy file (YAML) holds and [json.dumps] can encode.
    A [str] is the list of its code points, each below 256 (one [ascii]);
    a [dict] keeps insertion order, as Python's does, and its keys are [str].
    Floats are not modelled, nor the values [json.dumps] refuses (a date,
    a set, a dict whose keys do not compare). *)

#[warnings="-register-all"]
Inductive pyval : Type :=
| PNone
| PBool (b : bool)
| PInt (z : Z)
| PStr (s : string)
| PList (l : list pyval)
| PDict (d : list (string * pyval)).

Definition dict : Type := list (string * pyval).

(** [bool(v)]: what [not v] and [if v] test. *)
Definition truthy (v : pyval) : bool :=
  match v with
  | PNone => false
  | PBool b => b
  | PInt z => negb (Z.eqb z 0)
  | PStr s => negb (String.eqb s EmptyString)
  | PList l => match l with [] => false | _ => true end
  | PDict d => match d with [] => false | _ => true end
  end.

(** [hash(v)] raises [TypeError] for lists and dicts. *)
Definition hashable (v : pyval) : bool :=
  match v with
  | PList _ | PDict _ => false
  | _ => true
  end.

(** [==] on hashable values, as a dict uses it to compare keys: a [bool] is
    the int 0 or 1. *)
Definition py_eqb (a b : pyval) : bool :=
  match a, b with
  | PNone, PNone => true
  | PBool x, PBool y => Bool.eqb x y
  | PBool x, PInt y => Z.eqb (Z.b2z x) y
  | PInt x, PBool y => Z.eqb x (Z.b2z y)
  | PInt x, PInt y => Z.eqb x y
  | PStr x, PStr y => String.eqb x y
  | _, _ => false
  end.

(** ** Insertion-ordered dictionaries *)

Section Assoc.
Context {K V : Type} (eqb : K -> K -> bool).

(** [d.get(k)], [None] when the key is absent. *)
Fixpoint assoc_get (k : K) (d : list (K * V)) : option V :=
  match d with
  | [] => None
  | (k', v) :: rest => if eqb k k' then Some v else assoc_get k rest
  end.

(** [k in d] *)
Definition assoc_mem (k : K) (d : list (K * V)) : bool :=
  match assoc_get k d with Some _ => true | None => false end.

(** [d[k] = v]: an existing key keeps its place, a new one goes last. *)
Fixpoint assoc_set (k : K) (v : V) (d : list (K * V)) : list (K * V) :=
  match d with
  | [] => [(k, v)]
  | (k', v') :: rest =>
      if eqb k k' then (k', v) :: rest else (k', v') :: assoc_set k v rest
  end.

(** What is left of [d] after [d.pop(k)] (its value is [assoc_get k d]). *)
Definition assoc_del (k : K) (d : list (K * V)) : list (K * V) :=
  filter (fun kv => negb (eqb k (fst kv))) d.
End Assoc.

Definition dict_get : string -> dict -> option pyval := assoc_get String.eqb.
Definition dict_mem : string -> dict -> bool := assoc_mem String.eqb.
Definition dict_set : string -> pyval -> dict -> dict := assoc_set String.eqb.
Definition dict_del : string -> dict -> dict := assoc_del String.eqb.

(** ** Errors

    Fallible code returns [Ok] or the exception it raises. *)

Inductive error : Type :=
| AssertionError (msg : string)
| KeyError
| ValueError
| TypeError.

Inductive result (A : Type) : Type :=
| Ok (a : A)
| Err (e : error).
Arguments Ok {A} a.
Arguments Err {A} e.

Definition bind {A B : Type} (m : result A) (f : A -> result B) : result B :=
  match m with
  | Ok a => f a
  | Err e => Err e
  end.

Notation "x <- m ;; k" := (bind m (fun x => k))
  (at level 61, m at next level, right associativity).
Notation "' p <- m ;; k" := (bind m (fun x => let p := x in k))
  (at level 61, p pattern, m at next level, right associativity).

(** ** [json.dumps(obj, sort_keys=True, separators=(",", ":"))]

    The encoder keeps its default [ensure_ascii=True], so the text is ASCII
    and [encode("utf8")] leaves it byte for byte. *)

Module Json.

Definition quote : ascii := "034"%char.
Definition backslash : ascii := "092"%char.

Definition hex_digit (n : N) : ascii :=
  if (n <? 10)%N then ascii_of_N (48 + n) else ascii_of_N (87 + n).

(** One character of a string literal: the short escapes, [\u00XX] for
    whatever else lies outside [' '..'~'], the character itself otherwise. *)
Definition escape_char (c : ascii) : string :=
  let n := N_of_ascii c in
  if Ascii.eqb c quote then String backslash (String quote EmptyString)
  else if Ascii.eqb c backslash then String backslash (String backslash EmptyString)
  else if (n =? 8)%N then String backslash "b"
  else if (n =? 12)%N then String backslash "f"
  else if (n =? 10)%N then String backslash "n"
  else if (n =? 13)%N then String backslash "r"
  else if (n =? 9)%N then String backslash "t"
  else if ((n <? 32) || (126 <? n))%N then
    String backslash
      ("u00" ++ String (hex_digit (n / 16)) (String (hex_digit (n mod 16)) EmptyString))
  else String c EmptyString.

Fixpoint escape (s : string) : string :=
  match s with
  | EmptyString => EmptyString
  | String c rest => escape_char c ++ escape rest
  end.

Definition encode_str (s : string) : string :=
  String quote (escape s ++ String quote EmptyString).

(** [int.__repr__] *)
Definition encode_int (z : Z) : string := NilZero.string_of_int (Z.to_int z).

(** [sep.join(parts)] *)
Fixpoint join (sep : string) (parts : list string) : string :=
  match parts with
  | [] => EmptyString
  | [p] => p
  | p :: rest => p ++ sep ++ join sep rest
  end.

(** [sort_keys=True]: items in increasing key order (a stable insertion
    sort; the keys of a dict are distinct). *)
Fixpoint insert_item {A : Type} (kv : string * A) (l : list (string * A))
  : list (string * A) :=
  match l with
  | [] => [kv]
  | kv' :: rest =>
      if String.ltb (fst kv) (fst kv') then kv :: l
      else kv' :: insert_item kv rest
  end.

Definition sort_items {A : Type} (l : list (string * A)) : list (string * A) :=
  fold_right insert_item [] l.

Definition encode_item (kv : string * string) : string :=
  encode_str (fst kv) ++ ":" ++ snd kv.

(** The values of a dict are encoded before the items are put in key
    order; the order depends on the keys alone. *)
Fixpoint dumps (o : pyval) : string :=
  match o with
  | PNone => "null"
  | PBool true => "true"
  | PBool false => "false"
  | PInt z => encode_int z
  | PStr s => encode_str s
  | PList l => "[" ++ join "," (map dumps l) ++ "]"
  | PDict d =>
      "{" ++ join ","
               (map encode_item
                    (sort_items (map (fun kv => (fst kv, dumps (snd kv))) d)))
          ++ "}"
  end.

End Json.

(** ** [hashlib.md5(data).hexdigest()] (RFC 1321)

    32-bit words are [Z] with the wrap-around written out. *)

Module MD5.
Local Open Scope Z_scope.

Definition mask32 (x : Z) : Z := Z.land x 0xffffffff.
Definition add32 (x y : Z) : Z := mask32 (x + y).
Definition not32 (x : Z) : Z := Z.lxor x 0xffffffff.
Definition rotl32 (x c : Z) : Z :=
  Z.lor (mask32 (Z.shiftl x c)) (Z.shiftr x (32 - c)).

Definition shifts : list Z :=
  [ 7; 12; 17; 22; 7; 12; 17; 22; 7; 12; 17; 22; 7; 12; 17; 22;
    5; 9; 14; 20; 5; 9; 14; 20; 5; 9; 14; 20; 5; 9; 14; 20;
    4; 11; 16; 23; 4; 11; 16; 23; 4; 11; 16; 23; 4; 11; 16; 23;
    6; 10; 15; 21; 6; 10; 15; 21; 6; 10; 15; 21; 6; 10; 15; 21 ].

(** [K[i] = floor(2^32 * abs(sin(i + 1)))] *)
Definition K : list Z :=
  [ 0xd76aa478; 0xe8c7b756; 0x242070db; 0xc1bdceee;
    0xf57c0faf; 0x4787c62a; 0xa8304613; 0xfd469501;
    0x698098d8; 0x8b44f7af; 0xffff5bb1; 0x895cd7be;
    0x6b901122; 0xfd987193; 0xa679438e; 0x49b40821;
    0xf61e2562; 0xc040b340; 0x265e5a51; 0xe9b6c7aa;
    0xd62f105d; 0x02441453; 0xd8a1e681; 0xe7d3fbc8;
    0x21e1cde6; 0xc33707d6; 0xf4d50d87; 0x455a14ed;
    0xa9e3e905; 0xfcefa3f8; 0x676f02d9; 0x8d2a4c8a;
    0xfffa3942; 0x8771f681; 0x6d9d6122; 0xfde5380c;
    0xa4beea44; 0x4bdecfa9; 0xf6bb4b60; 0xbebfbc70;
    0x289b7ec6; 0xeaa127fa; 0xd4ef3085; 0x04881d05;
    0xd9d4d039; 0xe6db99e5; 0x1fa27cf8; 0xc4ac5665;
    0xf4292244; 0x432aff97; 0xab9423a7; 0xfc93a039;
    0x655b59c3; 0x8f0ccc92; 0xffeff47d; 0x85845dd1;
    0x6fa87e4f; 0xfe2ce6e0; 0xa3014314; 0x4e0811a1;
    0xf7537e82; 0xbd3af235; 0x2ad7d2bb; 0xeb86d391 ].

(** The [n] low bytes of [x], least significant first. *)
Fixpoint le_bytes (n : nat) (x : Z) : list Z :=
  match n with
  | O => []
  | S n' => Z.land x 0xff :: le_bytes n' (Z.shiftr x 8)
  end.

Fixpoint of_le_bytes (bs : list Z) : Z :=
  match bs with
  | [] => 0
  | b :: rest => Z.lor b (Z.shiftl (of_le_bytes rest) 8)
  end.

(** A [1] bit, zeros up to 56 modulo 64, then the bit length on 64 bits. *)
Definition pad (msg : list Z) : list Z :=
  let len := Z.of_nat (length msg) in
  msg ++ [0x80] ++ repeat 0 (Z.to_nat ((55 - len) mod 64))
      ++ le_bytes 8 (8 * len).

(** Consecutive groups of [n] items; [fuel] bounds their number. *)
Fixpoint chunks {A : Type} (n fuel : nat) (l : list A) : list (list A) :=
  match fuel with
  | O => []
  | S fuel' =>
      match l with
      | [] => []
      | _ => firstn n l :: chunks n fuel' (skipn n l)
      end
  end.

Definition words (block : list Z) : list Z :=
  map of_le_bytes (chunks 4 16 block).

Definition round (M : list Z) (st : Z * Z * Z * Z) (i : nat) : Z * Z * Z * Z :=
  let '(A, B, C, D) := st in
  let zi := Z.of_nat i in
  let '(F, g) :=
    if zi <? 16 then (Z.lor (Z.land B C) (Z.land (not32 B) D), zi)
    else if zi <? 32 then
      (Z.lor (Z.land D B) (Z.land (not32 D) C), (5 * zi + 1) mod 16)
    else if zi <? 48 then (Z.lxor B (Z.lxor C D), (3 * zi + 5) mod 16)
    else (Z.lxor C (Z.lor B (not32 D)), (7 * zi) mod 16) in
  let F := add32 (add32 (add32 F A) (nth i K 0)) (nth (Z.to_nat g) M 0) in
  (D, add32 B (rotl32 F (nth i shifts 0)), B, C).

Definition compress (h : Z * Z * Z * Z) (block : list Z) : Z * Z * Z * Z :=
  let '(a0, b0, c0, d0) := h in
  let '(A, B, C, D) := fold_left (round (words block)) (seq 0 64) h in
  (add32 a0 A, add32 b0 B, add32 c0 C, add32 d0 D).

Definition init : Z * Z * Z * Z :=
  (0x67452301, 0xefcdab89, 0x98badcfe, 0x10325476).

Definition digest (msg : list Z) : list Z :=
  let padded := pad msg in
  let '(a, b, c, d) :=
    fold_left compress (chunks 64 (length padded) padded) init in
  le_bytes 4 a ++ le_bytes 4 b ++ le_bytes 4 c ++ le_bytes 4 d.

Definition hex_byte (b : Z) : string :=
  String (Json.hex_digit (Z.to_N (Z.shiftr b 4)))
    (String (Json.hex_digit (Z.to_N (Z.land b 0xf))) EmptyString).

Definition bytes_of_string (s : string) : list Z :=
  map (fun c => Z.of_N (N_of_ascii c)) (list_ascii_of_string s).

Definition hexdigest (data : string) : string :=
  String.concat EmptyString (map hex_byte (digest (bytes_of_string data))).

End MD5.

(** ** Request model *)

Inductive RequestType : Type :=
| DECRYPT
| SEARCH
| CREATE_PROFILE
| ACTIVATE_LOCATION
| CREATE_LOCATION
| RENAME_FILE
| SECURE_EXPORT.

Module RequestTypes.

Definition all : list RequestType :=
  [DECRYPT; SEARCH; CREATE_PROFILE; ACTIVATE_LOCATION; CREATE_LOCATION;
   RENAME_FILE; SECURE_EXPORT].

(** [rtype.value] *)
Definition value (r : RequestType) : string :=
  match r with
  | DECRYPT => "decrypt"
  | SEARCH => "search"
  | CREATE_PROFILE => "create_profile"
  | ACTIVATE_LOCATION => "activate_location"
  | CREATE_LOCATION => "create_location"
  | RENAME_FILE => "rename"
  | SECURE_EXPORT => "secure_export"
  end.

(** [RequestType(s)]: the member whose value is [s], [ValueError] when
    there is none. *)
Definition of_value (s : string) : result RequestType :=
  match find (fun r => String.eqb (value r) s) all with
  | Some r => Ok r
  | None => Err ValueError
  end.

Definition eqb (a b : RequestType) : bool :=
  match a, b with
  | DECRYPT, DECRYPT | SEARCH, SEARCH | CREATE_PROFILE, CREATE_PROFILE
  | ACTIVATE_LOCATION, ACTIVATE_LOCATION | CREATE_LOCATION, CREATE_LOCATION
  | RENAME_FILE, RENAME_FILE | SECURE_EXPORT, SECURE_EXPORT => true
  | _, _ => false
  end.

End RequestTypes.

Definition bytes : Type := list Byte.byte.

Record ProfileInfo : Type := {
  profile_id : bytes;
  profile_words : list string
}.

Record MetaInfo : Type := {
  meta : string;
  complete : bool
}.

Record ApprovalRequest : Type := {
  request_type : RequestType;
  device_id : bytes;
  profile : ProfileInfo;
  auth_meta : list MetaInfo
}.

(** ** Calls into plugin code

    A call into a rule returns a value or raises.  [except Exception] catches
    what derives from [Exception]; [KeyboardInterrupt], [SystemExit] and the
    like derive from [BaseException] only, and pass through it.  [repr(ex)]
    runs the [__repr__] of the exception, plugin code again: it gives a text
    or raises an exception of its own. *)

Inductive exn : Type :=
| Exn (derives_from_Exception : bool) (r : repr_result)
with repr_result : Type :=
| Repr (text : string)
| ReprRaises (ex : exn).

(** [isinstance(ex, Exception)] *)
Definition is_Exception (ex : exn) : bool :=
  match ex with Exn b _ => b end.

(** [repr(ex)] *)
Definition exn_repr (ex : exn) : repr_result :=
  match ex with Exn _ r => r end.

Inductive outcome (A : Type) : Type :=
| Returned (a : A)
| Raised (ex : exn).
Arguments Returned {A} a.
Arguments Raised {A} ex.

(** ** [RulePlugin]

    [Store] is the state the rules themselves keep (counters, caches); a rule
    method reads and updates it. *)

Module RulePlugin.

(** A concrete rule class: its registered name, its [approve_request]
    (abstract in the base class) and the quota hooks it overrides. *)
Record class (Store : Type) : Type := {
  name : string;
  cls_approve_request :
    dict -> ApprovalRequest -> Store -> outcome (option bool) * Store;
  cls_check_quota : option (dict -> ProfileInfo -> Store -> pyval * Store);
  cls_clear_quota : option (dict -> ProfileInfo -> Store -> outcome unit * Store)
}.
Arguments name {Store} _.
Arguments cls_approve_request {Store} _.
Arguments cls_check_quota {Store} _.
Arguments cls_clear_quota {Store} _.

(** An instance: its class and [self.args]. *)
Record t (Store : Type) : Type := {
  cls : class Store;
  args : dict
}.
Arguments cls {Store} _.
Arguments args {Store} _.

(** What the plugin registry holds: rule classes and plugins of the other
    kinds (detectors, file-change and startup plugins). *)
Inductive plugin_class (Store : Type) : Type :=
| RuleClass (c : class Store)
| OtherClass (n : string).
Arguments RuleClass {Store} c.
Arguments OtherClass {Store} n.

Definition plugin_name {Store : Type} (c : plugin_class Store) : string :=
  match c with
  | RuleClass rc => name rc
  | OtherClass n => n
  end.

Section Methods.
Context {Store : Type}.

(** Modelled from the spec: [Plugin.get_by_name] is defined in
    atakama/plugin_base.py, which is not among the sources.  The registry
    maps a name to the class registered under it; an absent name fails. *)
Definition get_by_name (registry : list (plugin_class Store)) (pname : pyval)
  : result (plugin_class Store) :=
  match pname with
  | PStr n =>
      match find (fun c => String.eqb (plugin_name c) n) registry with
      | Some c => Ok c
      | None => Err KeyError
      end
  | PList _ | PDict _ => Err TypeError
  | _ => Err KeyError
  end.

(** Modelled from the spec: [Plugin.__init__] (atakama/plugin_base.py, not
    among the sources) keeps the configuration it is given as
    [self.args]; [to_dict] below reads it back.  A rule class whose own
    constructor raises has no instance, and no place here. *)
Definition construct (c : class Store) (data : dict) : t Store :=
  {| cls := c; args := data |}.

Definition approve_request (self : t Store) (request : ApprovalRequest)
           (st : Store) : outcome (option bool) * Store :=
  cls_approve_request (cls self) (args self) request st.

(** The base method has a docstring for body: it returns [None]. *)
Definition check_quota (self : t Store) (profile : ProfileInfo) (st : Store)
  : pyval * Store :=
  match cls_check_quota (cls self) with
  | Some f => f (args self) profile st
  | None => (PNone, st)
  end.

(** The base method has a docstring for body: it returns and changes
    nothing.  An override is plugin code: it returns or raises. *)
Definition clear_quota (self : t Store) (profile : ProfileInfo) (st : Store)
  : outcome unit * Store :=
  match cls_clear_quota (cls self) with
  | Some f => f (args self) profile st
  | None => (Returned tt, st)
  end.

(** [from_dict(data)] pops ["rule"] from [data] and hands [data] itself
    to the constructor: the result is the plugin and [data] as the call
    leaves it (the plugin's [args] is that same dict).  The parameter is
    a dict by its type, so [assert type(data) is dict] holds. *)
Definition from_dict (registry : list (plugin_class Store)) (data : dict)
  : result (t Store * dict) :=
  match dict_get "rule" data with
  | None => Err (AssertionError "Rule entries must have a plugin name")
  | Some pname =>
      let data := dict_del "rule" data in
      c <- get_by_name registry pname ;;
      match c with
      | RuleClass rc => Ok (construct rc data, data)
      | OtherClass _ =>
          Err (AssertionError "Rule plugins must derive from RulePlugin")
      end
  end.

Definition to_dict (self : t Store) : dict :=
  let out := args self in
  dict_set "rule" (PStr (name (cls self))) out.

End Methods.
End RulePlugin.

(** ** [RuleIdGenerator] *)

(** [ent.get(k)]: the value under [k], [None] when the key is absent. *)
Definition dict_get_or_None (k : string) (ent : dict) : pyval :=
  match dict_get k ent with Some v => v | None => PNone end.

Module RuleIdGenerator.

(** [_seen] is a [defaultdict] of counts keyed by rule id. *)
Record t : Type := {
  _seen : list (pyval * nat);
  _rule_seq : nat
}.

(** [RuleIdGenerator()] *)
Definition init : t := {| _seen := []; _rule_seq := 0 |}.

(** [str(n)] *)
Definition str (n : nat) : string := NilZero.string_of_uint (Nat.to_uint n).

(** [self._seen[k] += 1] *)
Definition count (k : pyval) (seen : list (pyval * nat)) : list (pyval * nat) :=
  let n := match assoc_get py_eqb k seen with Some n => n | None => 0 end in
  assoc_set py_eqb k (S n) seen.

(** [inject_rule_id(ent)] updates the generator and [ent] in place.  A
    run of it gives the exception it raises, if any, and the generator and
    [ent] as the call leaves them, whether it returns or raises.  A rule id
    that cannot be hashed makes [self._seen[rule_id]] raise [TypeError],
    after [_rule_seq] has been incremented. *)
Definition inject_rule_id_run (self : t) (ent : dict) : option error * t * dict :=
  let rule_seq := S (_rule_seq self) in
  let rule_id := dict_get_or_None "rule_id" ent in
  if negb (truthy rule_id) then
    let ent_data := Json.dumps (PDict ent) in
    let ent_hash := MD5.hexdigest ent_data in
    let ent_hash :=
      if assoc_mem py_eqb (PStr ent_hash) (_seen self)
      then (ent_hash ++ "." ++ str rule_seq)%string
      else ent_hash in
    let rule_id := PStr ent_hash in
    let ent := dict_set "rule_id" rule_id ent in
    (None, {| _seen := count rule_id (_seen self); _rule_seq := rule_seq |}, ent)
  else if hashable rule_id then
    (None, {| _seen := count rule_id (_seen self); _rule_seq := rule_seq |}, ent)
  else (Some TypeError, {| _seen := _seen self; _rule_seq := rule_seq |}, ent).

(** The call as its caller sees it: the generator and the entry when it
    returns, the exception when it raises. *)
Definition inject_rule_id (self : t) (ent : dict) : result (t * dict) :=
  match inject_rule_id_run self ent with
  | (None, self, ent) => Ok (self, ent)
  | (Some e, _, _) => Err e
  end.

End RuleIdGenerator.

(** ** Evaluation state: the rules' store and the error log *)

Inductive log_record (Store : Type) : Type :=
| UnknownRequestType (rule : RulePlugin.t Store)
| ErrorInRule (rule : RulePlugin.t Store) (ex_repr : string).
Arguments UnknownRequestType {Store} rule.
Arguments ErrorInRule {Store} rule ex_repr.

Record World (Store : Type) : Type := {
  store : Store;
  log : list (log_record Store)
}.
Arguments store {Store} _.
Arguments log {Store} _.

Definition set_store {Store : Type} (st : Store) (w : World Store) : World Store :=
  {| store := st; log := log w |}.

(** [log.error(...)] *)
Definition log_error {Store : Type} (r : log_record Store) (w : World Store)
  : World Store :=
  {| store := store w; log := log w ++ [r] |}.

Definition is_None {A : Type} (o : option A) : bool :=
  match o with None => true | Some _ => false end.

(** [bool(res)] for an [Optional[bool]] *)
Definition opt_truthy (o : option bool) : bool :=
  match o with Some b => b | None => false end.

(** [for x in l: body(x)], for a body that returns nothing: the loop ends
    at the first [body(x)] that raises, with that exception. *)
Fixpoint for_each {Store A : Type} (body : A -> Store -> outcome unit * Store)
         (l : list A) (st : Store) : outcome unit * Store :=
  match l with
  | [] => (Returned tt, st)
  | x :: rest =>
      match body x st with
      | (Returned _, st) => for_each body rest st
      | (Raised ex, st) => (Raised ex, st)
      end
  end.

(** ** [RuleSet]: all rules must pass *)

Module RuleSet.

Definition t (Store : Type) : Type := list (RulePlugin.t Store).

Section Methods.
Context {Store : Type}.

Fixpoint approve_request (self : t Store) (request : ApprovalRequest)
         (w : World Store) : outcome bool * World Store :=
  match self with
  | [] => (Returned true, w)
  | rule :: rest =>
      let '(r, st) := RulePlugin.approve_request rule request (store w) in
      let w := set_store st w in
      match r with
      | Returned res =>
          let w :=
            if is_None res then log_error (UnknownRequestType rule) w
            else w in
          if negb (opt_truthy res) then (Returned false, w)
          else approve_request rest request w
      | Raised ex =>
          if is_Exception ex
          then
            match exn_repr ex with
            | Repr text => (Returned false, log_error (ErrorInRule rule text) w)
            | ReprRaises ex' => (Raised ex', w)
            end
          else (Raised ex, w)
      end
  end.

(** [from_list(ruledata, rgen)]: the rule set, with the generator and
    the entries as the call leaves them.  [ruledata] is a list by its type,
    so [assert isinstance(ruledata, list)] holds. *)
Fixpoint from_list (registry : list (RulePlugin.plugin_class Store))
         (ruledata : list dict) (rgen : RuleIdGenerator.t)
  : result (t Store * RuleIdGenerator.t * list dict) :=
  match ruledata with
  | [] => Ok ([], rgen, [])
  | ent :: rest =>
      '(rgen, ent) <- RuleIdGenerator.inject_rule_id rgen ent ;;
      '(p, ent) <- RulePlugin.from_dict registry ent ;;
      '(lst, rgen, rest) <- from_list registry rest rgen ;;
      Ok (p :: lst, rgen, ent :: rest)
  end.

Definition to_list (self : t Store) : list dict :=
  map RulePlugin.to_dict self.

End Methods.
End RuleSet.

(** ** [RuleTree]: any rule set may pass *)

Module RuleTree.

Definition t (Store : Type) : Type := list (RuleSet.t Store).

Section Methods.
Context {Store : Type}.

Fixpoint approve_request (self : t Store) (request : ApprovalRequest)
         (w : World Store) : outcome bool * World Store :=
  match self with
  | [] => (Returned false, w)
  | rset :: rest =>
      match RuleSet.approve_request rset request w with
      | (Returned res, w) =>
          if res then (Returned true, w)
          else approve_request rest request w
      | (Raised ex, w) => (Raised ex, w)
      end
  end.

Fixpoint from_list (registry : list (RulePlugin.plugin_class Store))
         (ruledefs : list (list dict)) (rgen : RuleIdGenerator.t)
  : result (t Store * RuleIdGenerator.t * list (list dict)) :=
  match ruledefs with
  | [] => Ok ([], rgen, [])
  | ent :: rest =>
      '(rset, rgen, ent) <- RuleSet.from_list registry ent rgen ;;
      '(ini, rgen, rest) <- from_list registry rest rgen ;;
      Ok (rset :: ini, rgen, ent :: rest)
  end.

Definition to_list (self : t Store) : list (list dict) :=
  map RuleSet.to_list self.

End Methods.
End RuleTree.

(** ** [RuleEngine]: one [RuleTree] per request type *)

Module RuleEngine.

Record t (Store : Type) : Type := {
  map : list (RequestType * RuleTree.t Store)
}.
Arguments map {Store} _.

(** The policy document: request type names to tree definitions, as a
    YAML or JSON file without anchors gives it: every entry is a dict
    object of its own.  One dict object placed twice in a policy is
    outside this type: it would reach [RulePlugin.from_dict] a second time
    without its ["rule"] key, and the build would fail on its assertion. *)
Definition config : Type := list (string * list (list dict)).

Section Methods.
Context {Store : Type}.

Definition approve_request (self : t Store) (request : ApprovalRequest)
           (w : World Store) : outcome (option bool) * World Store :=
  match assoc_get RequestTypes.eqb (request_type request) (map self) with
  | None => (Returned None, w)
  | Some tree =>
      match RuleTree.approve_request tree request w with
      | (Returned res, w) => (Returned (Some res), w)
      | (Raised ex, w) => (Raised ex, w)
      end
  end.

(** The loop of [from_dict] over [info.items()], from the rule map and
    the generator built so far. *)
Fixpoint from_items (registry : list (RulePlugin.plugin_class Store))
         (items : config) (rgen : RuleIdGenerator.t)
         (rule_map : list (RequestType * RuleTree.t Store))
  : result (list (RequestType * RuleTree.t Store) * RuleIdGenerator.t * config) :=
  match items with
  | [] => Ok (rule_map, rgen, [])
  | (rtype, treedef) :: rest =>
      r <- RequestTypes.of_value rtype ;;
      '(tree, rgen, treedef) <- RuleTree.from_list registry treedef rgen ;;
      let rule_map := assoc_set RequestTypes.eqb r tree rule_map in
      '(rule_map, rgen, rest) <- from_items registry rest rgen rule_map ;;
      Ok (rule_map, rgen, (rtype, treedef) :: rest)
  end.

(** [from_dict(info)]: the engine, and [info] as the call leaves it. *)
Definition from_dict (registry : list (RulePlugin.plugin_class Store))
           (info : config) : result (t Store * config) :=
  let rgen := RuleIdGenerator.init in
  '(rule_map, _, info) <- from_items registry info rgen [] ;;
  Ok ({| map := rule_map |}, info).

(** The three loops of [clear_quota] have no handler: the first
    [rule.clear_quota(profile)] that raises ends them all. *)
Definition clear_quota (self : t Store) (profile : ProfileInfo) (st : Store)
  : outcome unit * Store :=
  for_each
    (fun rt =>
       for_each
         (fun rs => for_each (fun rule => RulePlugin.clear_quota rule profile) rs)
         (snd rt))
    (map self) st.

Definition to_dict (self : t Store) : config :=
  fold_left
    (fun dct item =>
       assoc_set String.eqb (RequestTypes.value (fst item))
                 (RuleTree.to_list (snd item)) dct)
    (map self) [].

End Methods.
End RuleEngine.

(** ** Stub rules for concrete runs

    The store is the list of the rules called so far, in call order: each
    stub appends its name to it and then returns or raises as told. *)

Module Stubs.

Definition Store : Type := list string.

Definition stub (n : string) (out : outcome (option bool))
  : RulePlugin.class Store :=
  {| RulePlugin.name := n;
     RulePlugin.cls_approve_request := fun _ _ st => (out, st ++ [n]);
     RulePlugin.cls_check_quota := None;
     RulePlugin.cls_clear_quota := None |}.

Definition value_error : exn :=
  Exn true (Repr "ValueError('boom')").

Definition system_exit : exn :=
  Exn false (Repr "SystemExit()").

Definition allow : RulePlugin.class Store := stub "allow" (Returned (Some true)).
Definition deny : RulePlugin.class Store := stub "deny" (Returned (Some false)).
Definition unknown : RulePlugin.class Store := stub "unknown" (Returned None).
Definition faulty : RulePlugin.class Store := stub "faulty" (Raised value_error).
Definition quits : RulePlugin.class Store := stub "quits" (Raised system_exit).

(** A second approving rule, to tell two calls apart in the store. *)
Definition allow2 : RulePlugin.class Store := stub "allow2" (Returned (Some true)).

Definition registry : list (RulePlugin.plugin_class Store) :=
  [RulePlugin.RuleClass allow; RulePlugin.RuleClass deny;
   RulePlugin.RuleClass unknown; RulePlugin.RuleClass faulty;
   RulePlugin.RuleClass quits; RulePlugin.RuleClass allow2;
   RulePlugin.OtherClass "subprocess-detector"].

Definition inst (c : RulePlugin.class Store) : RulePlugin.t Store :=
  RulePlugin.construct c [].

Definition someone : ProfileInfo :=
  {| profile_id := [Byte.x01; Byte.x02]; profile_words := ["alpha"; "beta"] |}.

Definition request (rt : RequestType) : ApprovalRequest :=
  {| request_type := rt;
     device_id := [Byte.x0a];
     profile := someone;
     auth_meta := [{| meta := "/vault/report.txt"; complete := true |}] |}.

Definition start : World Store := {| store := []; log := [] |}.

(** Two entries with the same content and no rule id, and one that
    carries an explicit id. *)
Definition geo_entry : dict := [("rule", PStr "allow"); ("radius", PInt 5)].
Definition named_entry : dict :=
  [("rule", PStr "deny"); ("rule_id", PStr "office-hours")].
Definition blank_id_entry : dict :=
  [("rule", PStr "allow"); ("rule_id", PStr EmptyString)].

(** [geo_entry] as a policy saved after an earlier load holds it, with the
    id that load gave it. *)
Definition saved_geo_entry : dict :=
  [("rule", PStr "allow"); ("radius", PInt 5);
   ("rule_id", PStr "9e9051585ff2a312a064fd6a9b2bc314")].

Definition policy : RuleEngine.config :=
  [("decrypt", [[geo_entry; named_entry]; [geo_entry]]);
   ("search", [[blank_id_entry]])].

(** What [RuleEngine.from_dict registry policy] builds, and what it leaves
    of [policy]. *)
Definition policy_built : RuleEngine.config :=
  [("decrypt",
    [[[("radius", PInt 5); ("rule_id", PStr "9e9051585ff2a312a064fd6a9b2bc314")];
      [("rule_id", PStr "office-hours")]];
     [[("radius", PInt 5);
       ("rule_id", PStr "9e9051585ff2a312a064fd6a9b2bc314.3")]]]);
   ("search", [[[("rule_id", PStr "0d3dc811e94678e0c2cd670409dc248d")]]])].

Definition policy_engine : RuleEngine.t Store :=
  {| RuleEngine.map :=
       [(DECRYPT,
         [[RulePlugin.construct allow
             [("radius", PInt 5);
              ("rule_id", PStr "9e9051585ff2a312a064fd6a9b2bc314")];
           RulePlugin.construct deny [("rule_id", PStr "office-hours")]];
          [RulePlugin.construct allow
             [("radius", PInt 5);
              ("rule_id", PStr "9e9051585ff2a312a064fd6a9b2bc314.3")]]]);
        (SEARCH,
         [[RulePlugin.construct allow
             [("rule_id", PStr "0d3dc811e94678e0c2cd670409dc248d")]]])] |}.

End Stubs.

(** ** Runs of rules and of rule sets

    [all_approve rules request st] calls the rules in order from the store
    [st]: it is the store they leave when each of them returns [True], and
    [None] as soon as one does anything else.  [all_deny] does the same for
    rule sets that each decide [False]. *)

Section Runs.
Context {Store : Type}.

Fixpoint all_approve (rules : list (RulePlugin.t Store))
         (request : ApprovalRequest) (st : Store) : option Store :=
  match rules with
  | [] => Some st
  | rule :: rest =>
      match RulePlugin.approve_request rule request st with
      | (Returned (Some true), st1) => all_approve rest request st1
      | _ => None
      end
  end.

Fixpoint all_deny (groups : list (RuleSet.t Store))
         (request : ApprovalRequest) (w : World Store) : option (World Store) :=
  match groups with
  | [] => Some w
  | rset :: rest =>
      match RuleSet.approve_request rset request w with
      | (Returned false, w1) => all_deny rest request w1
      | _ => None
      end
  end.

(** The rules of an engine, over all its trees and rule sets. *)
Definition engine_rules (eng : RuleEngine.t Store) : list (RulePlugin.t Store) :=
  concat (concat (map snd (RuleEngine.map eng))).

End Runs.

(** ** Loads

    One load makes one generator and hands it every entry of the policy, in
    file order. *)

(** The digest of an entry's canonical encoding. *)
Definition content_digest (ent : dict) : string :=
  MD5.hexdigest (Json.dumps (PDict ent)).

(** The id [inject_rule_id] makes for an entry without one: the digest, or
    the digest, a dot and the sequence number of the entry when the digest
    is in [_seen]. *)
Definition fresh_id (rgen : RuleIdGenerator.t) (ent : dict) : string :=
  let h := content_digest ent in
  if assoc_mem py_eqb (PStr h) (RuleIdGenerator._seen rgen)
  then h ++ "." ++ RuleIdGenerator.str (S (RuleIdGenerator._rule_seq rgen))
  else h.

(** The calls of [inject_rule_id] on a list of entries, in order. *)
Fixpoint inject_all (rgen : RuleIdGenerator.t) (ents : list dict)
  : result (RuleIdGenerator.t * list dict) :=
  match ents with
  | [] => Ok (rgen, [])
  | ent :: rest =>
      '(rgen, ent) <- RuleIdGenerator.inject_rule_id rgen ent ;;
      '(rgen, rest) <- inject_all rgen rest ;;
      Ok (rgen, ent :: rest)
  end.

(** The entries of a policy, in file order. *)
Definition entries (info : RuleEngine.config) : list dict :=
  concat (concat (map snd info)).

(** The ids a load has assigned: the rule ids found afterwards in the
    entries that came without one. *)
Fixpoint assigned_ids (before after : list dict) : list pyval :=
  match before, after with
  | e :: before, e' :: after =>
      if truthy (dict_get_or_None "rule_id" e) then assigned_ids before after
      else dict_get_or_None "rule_id" e' :: assigned_ids before after
  | _, _ => []
  end.

(** What building a plugin from the entry [e] leaves of it, [e']: the
    ["rule"] key is gone, a rule id that was there is kept, one that was
    missing is there, and every other key is as it was. *)
Definition entry_built (e e' : dict) : Prop :=
  dict_get "rule" e' = None
  /\ (truthy (dict_get_or_None "rule_id" e) = true ->
      dict_get "rule_id" e' = dict_get "rule_id" e)
  /\ (truthy (dict_get_or_None "rule_id" e) = false ->
      exists id, dict_get "rule_id" e' = Some (PStr id))
  /\ forall k, k <> "rule" -> k <> "rule_id" -> dict_get k e' = dict_get k e.

(** An id the generator has counted, made of a digest, or of a digest, a
    dot and a sequence number already used. *)
Definition tracked (rgen : RuleIdGenerator.t) (id : string) : Prop :=
  assoc_mem py_eqb (PStr id) (RuleIdGenerator._seen rgen) = true
  /\ (String.length id = 32
      \/ exists h n, id = (h ++ "." ++ RuleIdGenerator.str n)%string
                     /\ String.length h = 32
                     /\ n <= RuleIdGenerator._rule_seq rgen).

(** A plugin as [RuleSet.from_list] makes it: the registry gives its class
    for its name, and its [args] have no ["rule"] key and a rule id that is
    true and can be hashed. *)
Definition well_built {Store : Type}
           (registry : list (RulePlugin.plugin_class Store))
           (p : RulePlugin.t Store) : Prop :=
  find (fun c => String.eqb (RulePlugin.plugin_name c)
                            (RulePlugin.name (RulePlugin.cls p))) registry
  = Some (RulePlugin.RuleClass (RulePlugin.cls p))
  /\ dict_get "rule" (RulePlugin.args p) = None
  /\ truthy (dict_get_or_None "rule_id" (RulePlugin.args p)) = true
  /\ hashable (dict_get_or_None "rule_id" (RulePlugin.args p)) = true.

(** What building an engine from the policy [info] leaves of it, [info']:
    the same request types, rule sets and entries, each entry left as
    [entry_built] says. *)
Definition config_built (info info' : RuleEngine.config) : Prop :=
  Forall2 (fun kt kt' => fst kt = fst kt'
                         /\ Forall2 (Forall2 entry_built) (snd kt) (snd kt'))
          info info'.

(** ** Rules that only decide

    [decides f request rule]: called on [request], the rule returns the
    boolean [f rule] and leaves the store as it found it. *)
Definition decides {Store : Type} (f : RulePlugin.t Store -> bool)
           (request : ApprovalRequest) (rule : RulePlugin.t Store) : Prop :=
  forall st, RulePlugin.approve_request rule request st = (Returned (Some (f rule)), st).

(** What an entry must be for [RuleSet.from_list] to build it: its
    ["rule"] is the name of a rule class of the registry, and its rule id,
    when true, can be hashed. *)
Definition entry_ok {Store : Type}
           (registry : list (RulePlugin.plugin_class Store)) (ent : dict) : Prop :=
  (exists n c, dict_get "rule" ent = Some (PStr n)
               /\ find (fun pc => String.eqb (RulePlugin.plugin_name pc) n) registry
                  = Some (RulePlugin.RuleClass c))
  /\ (truthy (dict_get_or_None "rule_id" ent) = true ->
      hashable (dict_get_or_None "rule_id" ent) = true).


(** The plugin [p] is the one built from the entry [ent]: its class is
    the one [ent] names, and its [args] are [ent] as the build leaves it,
    with a true rule id. *)
Definition built_from {Store : Type} (ent : dict) (p : RulePlugin.t Store) : Prop :=
  dict_get "rule" ent = Some (PStr (RulePlugin.name (RulePlugin.cls p)))
  /\ entry_built ent (RulePlugin.args p)
  /\ truthy (dict_get_or_None "rule_id" (RulePlugin.args p)) = true.

(** What a policy must be for [RuleEngine.from_dict] to build it: every
    key is the name of a request type and every entry is as [entry_ok]
    says. *)
Definition config_ok {Store : Type}
           (registry : list (RulePlugin.plugin_class Store))
           (info : RuleEngine.config) : Prop :=
  Forall (fun kt => (exists r, RequestTypes.of_value (fst kt) = Ok r)
                    /\ Forall (Forall (entry_ok registry)) (snd kt))
         info.


(** Rules that decide from the request alone, for concrete runs. *)
Module Deciders.

(** Approves the requests whose type is the one named by its ["type"]. *)
Definition request_is : RulePlugin.class Stubs.Store :=
  {| RulePlugin.name := "request-is";
     RulePlugin.cls_approve_request :=
       fun args request st =>
         (Returned
            (Some (match dict_get "type" args with
                   | Some (PStr s) =>
                       String.eqb s (RequestTypes.value (request_type request))
                   | _ => false
                   end)), st);
     RulePlugin.cls_check_quota := None;
     RulePlugin.cls_clear_quota := None |}.

(** Approves the requests whose metadata are all complete. *)
Definition complete_meta : RulePlugin.class Stubs.Store :=
  {| RulePlugin.name := "complete-meta";
     RulePlugin.cls_approve_request :=
       fun _ request st =>
         (Returned (Some (forallb complete (auth_meta request))), st);
     RulePlugin.cls_check_quota := None;
     RulePlugin.cls_clear_quota := None |}.

(** A rule that keeps, in the store, the names of the profiles it has
    seen, and forgets them when its quota is cleared. *)
Definition metered : RulePlugin.class Stubs.Store :=
  {| RulePlugin.name := "metered";
     RulePlugin.cls_approve_request :=
       fun _ _ st => (Returned (Some true), st ++ ["metered"]);
     RulePlugin.cls_check_quota := None;
     RulePlugin.cls_clear_quota :=
       Some (fun _ _ st =>
               (Returned tt, filter (fun n => negb (String.eqb n "metered")) st)) |}.

(** An exception deriving from [Exception] whose [__repr__] raises. *)
Definition unprintable : exn :=
  Exn true (ReprRaises (Exn true (Repr "RuntimeError('no repr')"))).

(** A rule that raises [unprintable]. *)
Definition garbled : RulePlugin.class Stubs.Store :=
  Stubs.stub "garbled" (Raised unprintable).

(** A rule whose [clear_quota] raises. *)
Definition stuck : RulePlugin.class Stubs.Store :=
  {| RulePlugin.name := "stuck";
     RulePlugin.cls_approve_request := fun _ _ st => (Returned (Some true), st);
     RulePlugin.cls_check_quota := None;
     RulePlugin.cls_clear_quota :=
       Some (fun _ _ st => (Raised Stubs.value_error, st)) |}.

Definition for_type (s : string) : RulePlugin.t Stubs.Store :=
  RulePlugin.construct request_is [("type", PStr s)].

Definition tree : RuleTree.t Stubs.Store :=
  [[for_type "search"; RulePlugin.construct complete_meta []];
   [for_type "decrypt"; RulePlugin.construct complete_meta []]].

(** What a rule of [tree] answers to the request [r]. *)
Definition answer (r : ApprovalRequest) (rule : RulePlugin.t Stubs.Store) : bool :=
  match RulePlugin.approve_request rule r [] with
  | (Returned (Some b), _) => b
  | _ => false
  end.

End Deciders.

(** [lets_through ex0 ex]: when a rule raises [ex0], the exception [ex]
    leaves its rule set: [ex0] itself when it does not derive from
    [Exception], and what [repr(ex0)] raises when it does. *)
Definition lets_through (ex0 ex : exn) : Prop :=
  (is_Exception ex0 = false /\ ex = ex0)
  \/ (is_Exception ex0 = true /\ exn_repr ex0 = ReprRaises ex).

(** * Properties *)

(** ** Test vectors *)

Example md5_empty :
  MD5.hexdigest EmptyString = "d41d8cd98f00b204e9800998ecf8427e".
Proof. vm_compute. reflexivity. Qed.

Example md5_abc : MD5.hexdigest "abc" = "900150983cd24fb0d6963f7d28e17f72".
Proof. vm_compute. reflexivity. Qed.

Example md5_two_blocks :
  MD5.hexdigest
    "12345678901234567890123456789012345678901234567890123456789012345678901234567890"
  = "57edf4a22be3c955ac49da2e2107b67a".
Proof. vm_compute. reflexivity. Qed.

Example dumps_sorts_keys :
  Json.dumps (PDict Stubs.geo_entry)
  = String "{" (String Json.quote ("radius" ++ String Json.quote (":5," ++
      String Json.quote ("rule" ++ String Json.quote (":" ++
      String Json.quote ("allow" ++ String Json.quote "}"))))))%string.
Proof. vm_compute. reflexivity. Qed.

(** ** [RuleSet] and [RuleTree] evaluation *)

Section Evaluation.
Context {Store : Type}.
Implicit Types (request : ApprovalRequest) (w : World Store).
Implicit Types (rule : RulePlugin.t Store).

Lemma set_store_store w : set_store (store w) w = w.
Proof. destruct w; reflexivity. Qed.

Lemma set_store_twice (st st' : Store) w :
  set_store st' (set_store st w) = set_store st' w.
Proof. reflexivity. Qed.

(** A prefix of approving rules is run through; evaluation goes on with
    the rest from the store the prefix leaves. *)
Lemma RuleSet_approve_prefix pre rest request w st1 :
  all_approve pre request (store w) = Some st1 ->
  RuleSet.approve_request (pre ++ rest) request w
  = RuleSet.approve_request rest request (set_store st1 w).
Proof.
  revert w. induction pre as [|rule pre IH]; intros w H; simpl in H.
  - injection H as <-. now rewrite set_store_store.
  - simpl. destruct (RulePlugin.approve_request rule request (store w))
      as [[[[|]|]|ex] st]; try discriminate.
    simpl. rewrite (IH (set_store st w)) by exact H. reflexivity.
Qed.

Lemma RuleSet_all_approve rules request w st1 :
  all_approve rules request (store w) = Some st1 ->
  RuleSet.approve_request rules request w = (Returned true, set_store st1 w).
Proof.
  intros H. rewrite <- (app_nil_r rules).
  now rewrite (RuleSet_approve_prefix _ [] _ _ _ H).
Qed.

(** What the first rule that does not return [True] makes of the rule set,
    whatever follows it. *)
Lemma RuleSet_first_failure pre rule post request w st1 res st2 :
  all_approve pre request (store w) = Some st1 ->
  RulePlugin.approve_request rule request st1 = (res, st2) ->
  res <> Returned (Some true) ->
  RuleSet.approve_request (pre ++ rule :: post) request w
  = match res with
    | Returned (Some _) => (Returned false, set_store st2 w)
    | Returned None =>
        (Returned false, log_error (UnknownRequestType rule) (set_store st2 w))
    | Raised ex =>
        if is_Exception ex
        then
          match exn_repr ex with
          | Repr text =>
              (Returned false,
               log_error (ErrorInRule rule text) (set_store st2 w))
          | ReprRaises ex' => (Raised ex', set_store st2 w)
          end
        else (Raised ex, set_store st2 w)
    end.
Proof.
  intros Hpre Hrule Hres.
  rewrite (RuleSet_approve_prefix _ _ _ _ _ Hpre). simpl.
  rewrite Hrule. destruct res as [[[|]|]|ex]; try reflexivity.
  now contradiction Hres.
Qed.

Lemma RuleTree_deny_prefix pre rest request w w1 :
  all_deny pre request w = Some w1 ->
  RuleTree.approve_request (pre ++ rest) request w
  = RuleTree.approve_request rest request w1.
Proof.
  revert w. induction pre as [|rset pre IH]; intros w H; simpl in H.
  - now injection H as <-.
  - simpl. destruct (RuleSet.approve_request rset request w)
      as [[[|]|ex] w']; try discriminate.
    now apply IH.
Qed.

End Evaluation.

Lemma RequestTypes_eqb_eq (a b : RequestType) :
  RequestTypes.eqb a b = true <-> a = b.
Proof. destruct a, b; simpl; split; intros H; (reflexivity || discriminate). Qed.

Section AssocFacts.
Context {K V : Type} (eqb : K -> K -> bool).
Hypothesis eqb_eq : forall a b, eqb a b = true <-> a = b.

Lemma assoc_get_In k (v : V) d : assoc_get eqb k d = Some v -> In (k, v) d.
Proof.
  induction d as [|[k' v'] d IH]; simpl; [discriminate|].
  destruct (eqb k k') eqn:E.
  - intros [= ->]. apply eqb_eq in E as ->. now left.
  - intros H. right. now apply IH.
Qed.

Lemma assoc_get_absent k (d : list (K * V)) :
  (forall v, ~ In (k, v) d) -> assoc_get eqb k d = None.
Proof.
  induction d as [|[k' v'] d IH]; simpl; [reflexivity|]. intros H.
  destruct (eqb k k') eqn:E.
  - apply eqb_eq in E as ->. exfalso. apply (H v'). now left.
  - apply IH. intros v Hin. apply (H v). now right.
Qed.
End AssocFacts.

Section EvaluationProperties.
Context {Store : Type}.
Implicit Types (request : ApprovalRequest) (w : World Store).
Implicit Types (rule : RulePlugin.t Store) (eng : RuleEngine.t Store).

(** An exception leaves a rule set only as [lets_through] says, for an
    exception one of its rules raised. *)
Lemma RuleSet_raised rules request w ex w' :
  RuleSet.approve_request rules request w = (Raised ex, w') ->
  exists rule st ex0,
    In rule rules
    /\ RulePlugin.approve_request rule request st = (Raised ex0, store w')
    /\ lets_through ex0 ex.
Proof.
  revert w. induction rules as [|rule rules IH]; intros w; simpl; [discriminate|].
  destruct (RulePlugin.approve_request rule request (store w))
    as [[res|ex'] st] eqn:E.
  - destruct (negb (opt_truthy res)); [discriminate|].
    intros H. destruct (IH _ H) as (r & st' & ex0 & Hin & Hr & Hl).
    exists r, st', ex0. split; [now right | now split].
  - destruct (is_Exception ex') eqn:Eex.
    + destruct (exn_repr ex') as [text|ex''] eqn:Er; [discriminate|].
      intros [= <- <-]. exists rule, (store w), ex'.
      split; [now left|]. split; [exact E|]. right. now split.
    + intros [= <- <-]. exists rule, (store w), ex'.
      split; [now left|]. split; [exact E|]. left. now split.
Qed.

Lemma RuleTree_raised tree request w ex w' :
  RuleTree.approve_request tree request w = (Raised ex, w') ->
  exists rule st ex0,
    In rule (concat tree)
    /\ RulePlugin.approve_request rule request st = (Raised ex0, store w')
    /\ lets_through ex0 ex.
Proof.
  revert w. induction tree as [|rset tree IH]; intros w; simpl; [discriminate|].
  destruct (RuleSet.approve_request rset request w) as [[[|]|ex'] w1] eqn:E.
  - discriminate.
  - intros H. destruct (IH _ H) as (r & st & ex0 & Hin & Hr & Hl).
    exists r, st, ex0. split; [|now split].
    apply in_or_app. now right.
  - intros [= <- <-].
    destruct (RuleSet_raised _ _ _ _ _ E) as (r & st & ex0 & Hin & Hr & Hl).
    exists r, st, ex0. split; [|now split].
    apply in_or_app. now left.
Qed.

Lemma RuleEngine_raised eng request w ex w' :
  RuleEngine.approve_request eng request w = (Raised ex, w') ->
  exists rule st ex0,
    In rule (engine_rules eng)
    /\ RulePlugin.approve_request rule request st = (Raised ex0, store w')
    /\ lets_through ex0 ex.
Proof.
  unfold RuleEngine.approve_request.
  destruct (assoc_get RequestTypes.eqb (request_type request) (RuleEngine.map eng))
    as [tree|] eqn:Eget; [|discriminate].
  destruct (RuleTree.approve_request tree request w) as [[res|ex'] w1] eqn:E;
    [discriminate|].
  intros [= <- <-].
  destruct (RuleTree_raised _ _ _ _ _ E) as (r & st & ex0 & Hin & Hr & Hl).
  exists r, st, ex0. split; [|now split].
  apply in_concat in Hin as (rset & Hrset & Hrule).
  unfold engine_rules. apply in_concat. exists rset. split; [|exact Hrule].
  apply in_concat. exists tree. split; [|exact Hrset].
  apply (assoc_get_In _ RequestTypes_eqb_eq) in Eget.
  apply in_map_iff. now exists (request_type request, tree).
Qed.

(** C1 (as amended): a rule set calls its rules in the order of the list.
    With no rule, or when every rule returns [True], it returns [True].
    At the first rule that returns [False] or [None], or raises an
    exception deriving from [Exception] (whose [repr] gives the text that
    is logged), it stops and returns [False]: the result and the store are
    those that rule leaves, whatever rules follow it.  An exception that
    does not derive from [Exception] also stops the evaluation there, and
    goes on to the caller; so does what [repr] raises, when the [repr] of
    a caught exception raises. *)
Theorem RuleSet_approve_request_and pre request w st1 :
  all_approve pre request (store w) = Some st1 ->
  RuleSet.approve_request (@nil (RulePlugin.t Store)) request w = (Returned true, w)
  /\ RuleSet.approve_request pre request w = (Returned true, set_store st1 w)
  /\ forall rule post st2,
       (RulePlugin.approve_request rule request st1 = (Returned (Some false), st2) ->
        RuleSet.approve_request (pre ++ rule :: post) request w
        = (Returned false, set_store st2 w))
       /\ (RulePlugin.approve_request rule request st1 = (Returned None, st2) ->
           RuleSet.approve_request (pre ++ rule :: post) request w
           = (Returned false,
              log_error (UnknownRequestType rule) (set_store st2 w)))
       /\ (forall ex text,
              RulePlugin.approve_request rule request st1 = (Raised ex, st2) ->
              is_Exception ex = true ->
              exn_repr ex = Repr text ->
              RuleSet.approve_request (pre ++ rule :: post) request w
              = (Returned false,
                 log_error (ErrorInRule rule text) (set_store st2 w)))
       /\ (forall ex,
              RulePlugin.approve_request rule request st1 = (Raised ex, st2) ->
              is_Exception ex = false ->
              RuleSet.approve_request (pre ++ rule :: post) request w
              = (Raised ex, set_store st2 w))
       /\ (forall ex ex',
              RulePlugin.approve_request rule request st1 = (Raised ex, st2) ->
              is_Exception ex = true ->
              exn_repr ex = ReprRaises ex' ->
              RuleSet.approve_request (pre ++ rule :: post) request w
              = (Raised ex', set_store st2 w)).
Proof.
  intros Hpre. split; [reflexivity|]. split.
  - now apply RuleSet_all_approve.
  - intros rule post st2. repeat split.
    + intros H.
      now rewrite (RuleSet_first_failure _ _ post _ _ _ _ _ Hpre H).
    + intros H.
      now rewrite (RuleSet_first_failure _ _ post _ _ _ _ _ Hpre H).
    + intros ex text H Hex Hrepr.
      rewrite (RuleSet_first_failure _ _ post _ _ _ _ _ Hpre H) by discriminate.
      now rewrite Hex, Hrepr.
    + intros ex H Hex.
      rewrite (RuleSet_first_failure _ _ post _ _ _ _ _ Hpre H) by discriminate.
      now rewrite Hex.
    + intros ex ex' H Hex Hrepr.
      rewrite (RuleSet_first_failure _ _ post _ _ _ _ _ Hpre H) by discriminate.
      now rewrite Hex, Hrepr.
Qed.

(** C2: a rule tree evaluates its rule sets in the order of the list.  It
    returns [True] at the first rule set that returns [True], with the
    state that rule set leaves, whatever rule sets follow it; it returns
    [False] when it has no rule set or when every rule set returns
    [False]. *)
Theorem RuleTree_approve_request_or pre request w w1 :
  all_deny pre request w = Some w1 ->
  RuleTree.approve_request (@nil (RuleSet.t Store)) request w = (Returned false, w)
  /\ RuleTree.approve_request pre request w = (Returned false, w1)
  /\ forall rset post w2,
       RuleSet.approve_request rset request w1 = (Returned true, w2) ->
       RuleTree.approve_request (pre ++ rset :: post) request w
       = (Returned true, w2).
Proof.
  intros Hpre. split; [reflexivity|]. split.
  - rewrite <- (app_nil_r pre).
    now rewrite (RuleTree_deny_prefix _ [] _ _ _ Hpre).
  - intros rset post w2 Hrset.
    rewrite (RuleTree_deny_prefix _ _ _ _ _ Hpre). simpl. now rewrite Hrset.
Qed.

(** C3 (as amended): an exception deriving from [Exception] that a rule
    raises is caught by its rule set, which takes its [repr], logs it and
    returns [False]; the rule tree then goes on with the next rule sets.
    An exception leaves [RuleEngine.approve_request] in two cases only: one
    of its rules raised it and it does not derive from [Exception], or the
    [repr] of an exception a rule raised, deriving from [Exception], raised
    it while the handler was logging.  When the rules raise nothing but
    exceptions deriving from [Exception] whose [repr] gives a text, the
    engine returns [True], [False] or [None]. *)
Theorem evaluator_exceptions_contained eng request w :
  (forall pre rule post w0 st1 ex text st2,
      all_approve pre request (store w0) = Some st1 ->
      RulePlugin.approve_request rule request st1 = (Raised ex, st2) ->
      is_Exception ex = true ->
      exn_repr ex = Repr text ->
      RuleSet.approve_request (pre ++ rule :: post) request w0
      = (Returned false,
         log_error (ErrorInRule rule text) (set_store st2 w0)))
  /\ (forall (rset : RuleSet.t Store) rest w0 w1,
         RuleSet.approve_request rset request w0 = (Returned false, w1) ->
         RuleTree.approve_request (rset :: rest) request w0
         = RuleTree.approve_request rest request w1)
  /\ (forall ex w',
         RuleEngine.approve_request eng request w = (Raised ex, w') ->
         exists rule st ex0,
           In rule (engine_rules eng)
           /\ RulePlugin.approve_request rule request st = (Raised ex0, store w')
           /\ ((is_Exception ex0 = false /\ ex = ex0)
               \/ (is_Exception ex0 = true /\ exn_repr ex0 = ReprRaises ex)))
  /\ ((forall rule st ex st',
          In rule (engine_rules eng) ->
          RulePlugin.approve_request rule request st = (Raised ex, st') ->
          is_Exception ex = true /\ exists text, exn_repr ex = Repr text) ->
      exists res w',
        RuleEngine.approve_request eng request w = (Returned res, w')).
Proof.
  split; [|split; [|split]].
  - intros pre rule post w0 st1 ex text st2 Hpre Hrule Hex Hrepr.
    rewrite (RuleSet_first_failure _ _ post _ _ _ _ _ Hpre Hrule) by discriminate.
    now rewrite Hex, Hrepr.
  - intros rset rest w0 w1 H. simpl. now rewrite H.
  - intros ex w'. apply RuleEngine_raised.
  - intros Hall.
    destruct (RuleEngine.approve_request eng request w) as [[res|ex] w'] eqn:E.
    + now exists res, w'.
    + destruct (RuleEngine_raised _ _ _ _ _ E) as (r & st & ex0 & Hin & Hr & Hl).
      destruct (Hall _ _ _ _ Hin Hr) as [Hex [text Htext]].
      destruct Hl as [[Hf _]|[_ Hrr]]; congruence.
Qed.

(** C4: for a request whose type has no tree in the engine's map,
    [RuleEngine.approve_request] returns [None], which is not [False]; for
    a request whose type has a tree, it returns what that tree returns. *)
Theorem RuleEngine_approve_request_dispatch eng request w :
  ((forall tree, ~ In (request_type request, tree) (RuleEngine.map eng)) ->
   RuleEngine.approve_request eng request w = (Returned None, w))
  /\ (forall tree res w',
         assoc_get RequestTypes.eqb (request_type request) (RuleEngine.map eng)
         = Some tree ->
         RuleTree.approve_request tree request w = (Returned res, w') ->
         RuleEngine.approve_request eng request w = (Returned (Some res), w'))
  /\ @Returned (option bool) None <> Returned (Some false).
Proof.
  unfold RuleEngine.approve_request. split; [|split].
  - intros H. now rewrite (assoc_get_absent _ RequestTypes_eqb_eq _ _ H).
  - intros tree res w' Hget Htree. now rewrite Hget, Htree.
  - discriminate.
Qed.

(** C8: a rule whose class does not override the quota hooks: its
    [check_quota] returns [None] (the base method has no [return]), and its
    [clear_quota] returns and leaves the store as it is. *)
Theorem default_quota_hooks (rule : RulePlugin.t Store) (p : ProfileInfo) (st : Store) :
  (RulePlugin.cls_check_quota (RulePlugin.cls rule) = None ->
   RulePlugin.check_quota rule p st = (PNone, st)
   /\ fst (RulePlugin.check_quota rule p st) <> PBool true)
  /\ (RulePlugin.cls_clear_quota (RulePlugin.cls rule) = None ->
      RulePlugin.clear_quota rule p st = (Returned tt, st)).
Proof.
  unfold RulePlugin.check_quota, RulePlugin.clear_quota.
  split; intros ->; [split; [reflexivity | discriminate] | reflexivity].
Qed.

End EvaluationProperties.

(** *** Concrete runs *)

Lemma RuleSet_approve_request_and_witness :
  all_approve [Stubs.inst Stubs.allow] (Stubs.request DECRYPT) (store Stubs.start)
  = Some ["allow"]
  /\ RulePlugin.approve_request (Stubs.inst Stubs.deny) (Stubs.request DECRYPT) ["allow"]
     = (Returned (Some false), ["allow"; "deny"])
  /\ RuleSet.approve_request
       [Stubs.inst Stubs.allow; Stubs.inst Stubs.deny; Stubs.inst Stubs.allow2]
       (Stubs.request DECRYPT) Stubs.start
     = (Returned false, {| store := ["allow"; "deny"]; log := [] |}).
Proof.
  split; [reflexivity|]. split; [reflexivity|].
  exact (proj1 (proj2 (proj2 (RuleSet_approve_request_and
                                [Stubs.inst Stubs.allow] (Stubs.request DECRYPT)
                                Stubs.start ["allow"] eq_refl))
                      (Stubs.inst Stubs.deny) [Stubs.inst Stubs.allow2]
                      ["allow"; "deny"])
               eq_refl).
Defined.

(** A rule that raises [SystemExit]: the rule set does not return [False],
    the exception goes through it. *)
Lemma RuleSet_SystemExit_not_False :
  RulePlugin.approve_request (Stubs.inst Stubs.quits) (Stubs.request DECRYPT)
                             ["allow"]
  = (Raised Stubs.system_exit, ["allow"; "quits"])
  /\ RuleSet.approve_request
       [Stubs.inst Stubs.allow; Stubs.inst Stubs.quits; Stubs.inst Stubs.allow2]
       (Stubs.request DECRYPT) Stubs.start
     = (Raised Stubs.system_exit, {| store := ["allow"; "quits"]; log := [] |})
  /\ fst (RuleSet.approve_request
            [Stubs.inst Stubs.allow; Stubs.inst Stubs.quits; Stubs.inst Stubs.allow2]
            (Stubs.request DECRYPT) Stubs.start)
     <> Returned false.
Proof. split; [reflexivity|]. split; [reflexivity | discriminate]. Qed.

Lemma RuleTree_approve_request_or_witness :
  all_deny [[Stubs.inst Stubs.allow; Stubs.inst Stubs.deny]]
           (Stubs.request SEARCH) Stubs.start
  = Some {| store := ["allow"; "deny"]; log := [] |}
  /\ RuleSet.approve_request [Stubs.inst Stubs.allow2] (Stubs.request SEARCH)
       {| store := ["allow"; "deny"]; log := [] |}
     = (Returned true, {| store := ["allow"; "deny"; "allow2"]; log := [] |})
  /\ RuleTree.approve_request
       [[Stubs.inst Stubs.allow; Stubs.inst Stubs.deny];
        [Stubs.inst Stubs.allow2]; [Stubs.inst Stubs.unknown]]
       (Stubs.request SEARCH) Stubs.start
     = (Returned true, {| store := ["allow"; "deny"; "allow2"]; log := [] |}).
Proof.
  split; [reflexivity|]. split; [reflexivity|].
  exact (proj2 (proj2 (RuleTree_approve_request_or
                         [[Stubs.inst Stubs.allow; Stubs.inst Stubs.deny]]
                         (Stubs.request SEARCH) Stubs.start _ eq_refl))
               [Stubs.inst Stubs.allow2] [[Stubs.inst Stubs.unknown]] _ eq_refl).
Defined.

Lemma evaluator_exceptions_contained_witness :
  all_approve [Stubs.inst Stubs.allow] (Stubs.request RENAME_FILE) (store Stubs.start)
  = Some ["allow"]
  /\ RulePlugin.approve_request (Stubs.inst Stubs.faulty) (Stubs.request RENAME_FILE)
       ["allow"]
     = (Raised Stubs.value_error, ["allow"; "faulty"])
  /\ is_Exception Stubs.value_error = true
  /\ exn_repr Stubs.value_error = Repr "ValueError('boom')"
  /\ RuleSet.approve_request
       [Stubs.inst Stubs.allow; Stubs.inst Stubs.faulty; Stubs.inst Stubs.allow2]
       (Stubs.request RENAME_FILE) Stubs.start
     = (Returned false,
        {| store := ["allow"; "faulty"];
           log := [ErrorInRule (Stubs.inst Stubs.faulty) "ValueError('boom')"] |}).
Proof.
  split; [reflexivity|]. split; [reflexivity|]. split; [reflexivity|].
  split; [reflexivity|].
  exact (proj1 (evaluator_exceptions_contained
                  {| RuleEngine.map := [] |} (Stubs.request RENAME_FILE) Stubs.start)
               [Stubs.inst Stubs.allow] (Stubs.inst Stubs.faulty)
               [Stubs.inst Stubs.allow2] Stubs.start ["allow"] Stubs.value_error
               "ValueError('boom')" ["allow"; "faulty"]
               eq_refl eq_refl eq_refl eq_refl).
Defined.

(** A rule whose exception derives from [Exception] and has a [repr] that
    raises: what [repr] raises leaves the rule set, and the engine, and
    nothing is logged. *)
Example approve_request_repr_raises :
  RuleSet.approve_request
    [Stubs.inst Stubs.allow; Stubs.inst Deciders.garbled; Stubs.inst Stubs.allow2]
    (Stubs.request DECRYPT) Stubs.start
  = (Raised (Exn true (Repr "RuntimeError('no repr')")),
     {| store := ["allow"; "garbled"]; log := [] |})
  /\ RuleEngine.approve_request
       {| RuleEngine.map :=
            [(DECRYPT, [[Stubs.inst Deciders.garbled]; [Stubs.inst Stubs.allow]])] |}
       (Stubs.request DECRYPT) Stubs.start
     = (Raised (Exn true (Repr "RuntimeError('no repr')")),
        {| store := ["garbled"]; log := [] |}).
Proof. split; reflexivity. Qed.

(** An engine whose only rule raises [SystemExit]: the exception leaves
    [RuleEngine.approve_request], which returns nothing. *)
Lemma RuleEngine_SystemExit_escapes :
  RuleEngine.approve_request
    {| RuleEngine.map := [(DECRYPT, [[Stubs.inst Stubs.quits]; [Stubs.inst Stubs.allow]])] |}
    (Stubs.request DECRYPT) Stubs.start
  = (Raised Stubs.system_exit, {| store := ["quits"]; log := [] |})
  /\ forall res,
       fst (RuleEngine.approve_request
              {| RuleEngine.map :=
                   [(DECRYPT, [[Stubs.inst Stubs.quits]; [Stubs.inst Stubs.allow]])] |}
              (Stubs.request DECRYPT) Stubs.start)
       <> Returned res.
Proof. split; [reflexivity | discriminate]. Qed.

Lemma RuleEngine_approve_request_dispatch_witness :
  (forall tree,
      ~ In (SEARCH, tree)
           [(DECRYPT, [[Stubs.inst Stubs.deny]; [Stubs.inst Stubs.allow]])])
  /\ RuleEngine.approve_request
       {| RuleEngine.map := [(DECRYPT, [[Stubs.inst Stubs.deny]; [Stubs.inst Stubs.allow]])] |}
       (Stubs.request SEARCH) Stubs.start
     = (Returned None, Stubs.start)
  /\ RuleEngine.approve_request
       {| RuleEngine.map := [(DECRYPT, [[Stubs.inst Stubs.deny]; [Stubs.inst Stubs.allow]])] |}
       (Stubs.request DECRYPT) Stubs.start
     = (Returned (Some true), {| store := ["deny"; "allow"]; log := [] |}).
Proof.
  assert (H : forall tree,
             ~ In (SEARCH, tree)
                  [(DECRYPT, [[Stubs.inst Stubs.deny]; [Stubs.inst Stubs.allow]])]).
  { intros tree [E|[]]. discriminate E. }
  split; [exact H|]. split.
  - exact (proj1 (RuleEngine_approve_request_dispatch
                    {| RuleEngine.map :=
                         [(DECRYPT, [[Stubs.inst Stubs.deny]; [Stubs.inst Stubs.allow]])] |}
                    (Stubs.request SEARCH) Stubs.start) H).
  - exact (proj1 (proj2 (RuleEngine_approve_request_dispatch
                    {| RuleEngine.map :=
                         [(DECRYPT, [[Stubs.inst Stubs.deny]; [Stubs.inst Stubs.allow]])] |}
                    (Stubs.request DECRYPT) Stubs.start))
                 _ true _ eq_refl eq_refl).
Defined.

Lemma default_quota_hooks_witness :
  RulePlugin.cls_check_quota (RulePlugin.cls (Stubs.inst Stubs.allow)) = None
  /\ RulePlugin.check_quota (Stubs.inst Stubs.allow) Stubs.someone ["allow"]
     = (PNone, ["allow"]).
Proof.
  split; [reflexivity|].
  exact (proj1 (proj1 (default_quota_hooks (Stubs.inst Stubs.allow) Stubs.someone
                                           ["allow"]) eq_refl)).
Defined.

(** ** Dictionaries and strings *)

Section AssocUpdates.
Context {K V : Type} (eqb : K -> K -> bool).
Hypothesis eqb_eq : forall a b, eqb a b = true <-> a = b.

Lemma eqb_same k : eqb k k = true.
Proof. now apply eqb_eq. Qed.

Lemma eqb_other a b : a <> b -> eqb a b = false.
Proof.
  intros H. destruct (eqb a b) eqn:E; [|reflexivity].
  now apply eqb_eq in E.
Qed.

Lemma assoc_get_set_same k (v : V) d : assoc_get eqb k (assoc_set eqb k v d) = Some v.
Proof.
  induction d as [|[k' v'] d IH]; simpl.
  - now rewrite eqb_same.
  - destruct (eqb k k') eqn:E; simpl; now rewrite E.
Qed.

Lemma assoc_get_set_other k k' (v : V) d :
  k <> k' -> assoc_get eqb k' (assoc_set eqb k v d) = assoc_get eqb k' d.
Proof.
  intros Hne. induction d as [|[k0 v0] d IH]; simpl.
  - rewrite eqb_other; [reflexivity | congruence].
  - destruct (eqb k k0) eqn:E; simpl.
    + apply eqb_eq in E as <-. rewrite eqb_other; [reflexivity | congruence].
    + now rewrite IH.
Qed.

Lemma assoc_get_del_same k (d : list (K * V)) :
  assoc_get eqb k (assoc_del eqb k d) = None.
Proof.
  induction d as [|[k' v'] d IH]; simpl; [reflexivity|].
  destruct (eqb k k') eqn:E; simpl; [exact IH|]. now rewrite E.
Qed.

Lemma assoc_get_del_other k k' (d : list (K * V)) :
  k <> k' -> assoc_get eqb k' (assoc_del eqb k d) = assoc_get eqb k' d.
Proof.
  intros Hne. induction d as [|[k0 v0] d IH]; simpl; [reflexivity|].
  destruct (eqb k k0) eqn:E; simpl.
  + apply eqb_eq in E as <-. rewrite eqb_other; [exact IH | congruence].
  + now rewrite IH.
Qed.

Lemma assoc_del_absent k (d : list (K * V)) :
  assoc_get eqb k d = None -> assoc_del eqb k d = d.
Proof.
  induction d as [|[k' v'] d IH]; simpl; [reflexivity|].
  destruct (eqb k k') eqn:E; [discriminate|]. simpl.
  intros H. now rewrite IH.
Qed.

(** Setting a key that is absent and deleting it again gives the dict
    back. *)
Lemma assoc_del_set_absent k (v : V) d :
  assoc_get eqb k d = None -> assoc_del eqb k (assoc_set eqb k v d) = d.
Proof.
  induction d as [|[k' v'] d IH]; simpl.
  - now rewrite eqb_same.
  - destruct (eqb k k') eqn:E; [discriminate|]. simpl. rewrite E. simpl.
    intros H. now rewrite IH.
Qed.

Lemma assoc_set_keys k (v : V) d :
  assoc_get eqb k d <> None -> map fst (assoc_set eqb k v d) = map fst d.
Proof.
  induction d as [|[k' v'] d IH]; simpl; [congruence|].
  destruct (eqb k k') eqn:E; simpl; [reflexivity|].
  intros H. now rewrite IH.
Qed.

Lemma assoc_set_new k (v : V) d :
  assoc_get eqb k d = None -> assoc_set eqb k v d = d ++ [(k, v)].
Proof.
  induction d as [|[k' v'] d IH]; simpl; [reflexivity|].
  destruct (eqb k k') eqn:E; [discriminate|].
  intros H. now rewrite IH.
Qed.

Lemma assoc_get_not_In k (d : list (K * V)) :
  ~ In k (map fst d) -> assoc_get eqb k d = None.
Proof.
  intros H. apply (assoc_get_absent eqb eqb_eq). intros v Hin.
  apply H. apply in_map_iff. now exists (k, v).
Qed.

Lemma assoc_get_app_None k (d d' : list (K * V)) :
  assoc_get eqb k d = None -> assoc_get eqb k (d ++ d') = assoc_get eqb k d'.
Proof.
  induction d as [|[k' v'] d IH]; simpl; [reflexivity|].
  destruct (eqb k k'); [discriminate | exact IH].
Qed.
End AssocUpdates.

Lemma length_append (a b : string) :
  String.length (a ++ b) = String.length a + String.length b.
Proof. induction a as [|c a IH]; simpl; [reflexivity | now rewrite IH]. Qed.

(** Equal concatenations with left parts of one length. *)
Lemma append_same_length (a b c d : string) :
  String.length a = String.length b -> (a ++ c = b ++ d)%string -> a = b /\ c = d.
Proof.
  revert b. induction a as [|x a IH]; intros [|y b]; simpl; try discriminate.
  - intros _ H. now split.
  - intros [= Hlen] [= -> H]. destruct (IH _ Hlen H) as [-> ->]. now split.
Qed.

Lemma to_uint_nonnil (n : nat) : Nat.to_uint n <> Decimal.Nil.
Proof.
  rewrite <- (Unsigned.of_to n) at 1. rewrite Unsigned.to_of.
  apply DecimalFacts.unorm_nonnil.
Qed.

Lemma str_inj (n m : nat) : RuleIdGenerator.str n = RuleIdGenerator.str m -> n = m.
Proof.
  unfold RuleIdGenerator.str. intros H.
  apply Unsigned.to_uint_inj.
  pose proof (NilZero.usu _ (to_uint_nonnil n)) as Hn.
  pose proof (NilZero.usu _ (to_uint_nonnil m)) as Hm.
  rewrite H in Hn. congruence.
Qed.

Lemma hexdigest_length (data : string) : String.length (MD5.hexdigest data) = 32.
Proof.
  unfold MD5.hexdigest, MD5.digest.
  destruct (fold_left MD5.compress _ MD5.init) as [[[a b] c] d].
  reflexivity.
Qed.

(** ** [RuleIdGenerator.inject_rule_id] *)

Section SeenFacts.
Context {K V : Type} (eqb : K -> K -> bool).

Lemma assoc_mem_set_mono k k' (v : V) d :
  assoc_mem eqb k d = true -> assoc_mem eqb k (assoc_set eqb k' v d) = true.
Proof.
  unfold assoc_mem. induction d as [|[k0 v0] d IH]; simpl; [discriminate|].
  destruct (eqb k' k0); simpl; destruct (eqb k k0); auto.
Qed.

Lemma assoc_mem_set_same k (v : V) d :
  eqb k k = true -> assoc_mem eqb k (assoc_set eqb k v d) = true.
Proof.
  intros Hk. unfold assoc_mem. induction d as [|[k0 v0] d IH]; simpl.
  - now rewrite Hk.
  - destruct (eqb k k0) eqn:E; simpl; now rewrite E.
Qed.
End SeenFacts.

Lemma dict_get_set_same k v d : dict_get k (dict_set k v d) = Some v.
Proof. apply (assoc_get_set_same _ String.eqb_eq). Qed.

Lemma dict_get_set_other k k' v d :
  k <> k' -> dict_get k' (dict_set k v d) = dict_get k' d.
Proof. apply (assoc_get_set_other _ String.eqb_eq). Qed.

Lemma dict_get_del_same k d : dict_get k (dict_del k d) = None.
Proof. apply assoc_get_del_same. Qed.

Lemma dict_get_del_other k k' d :
  k <> k' -> dict_get k' (dict_del k d) = dict_get k' d.
Proof. apply (assoc_get_del_other _ String.eqb_eq). Qed.

Lemma dict_del_set_absent k v d :
  dict_get k d = None -> dict_del k (dict_set k v d) = d.
Proof. apply (assoc_del_set_absent _ String.eqb_eq). Qed.

Lemma fresh_id_length rgen ent : 32 <= String.length (fresh_id rgen ent).
Proof.
  unfold fresh_id, content_digest.
  destruct (assoc_mem py_eqb _ _).
  - rewrite length_append, hexdigest_length. lia.
  - now rewrite hexdigest_length.
Qed.

Lemma fresh_id_truthy rgen ent : truthy (PStr (fresh_id rgen ent)) = true.
Proof.
  pose proof (fresh_id_length rgen ent) as H. simpl.
  destruct (fresh_id rgen ent); [simpl in H; lia | reflexivity].
Qed.

(** The entry has no usable rule id: one is made and stored. *)
Lemma inject_rule_id_falsy rgen ent :
  truthy (dict_get_or_None "rule_id" ent) = false ->
  RuleIdGenerator.inject_rule_id rgen ent
  = Ok ({| RuleIdGenerator._seen :=
             RuleIdGenerator.count (PStr (fresh_id rgen ent))
                                   (RuleIdGenerator._seen rgen);
           RuleIdGenerator._rule_seq := S (RuleIdGenerator._rule_seq rgen) |},
        dict_set "rule_id" (PStr (fresh_id rgen ent)) ent).
Proof.
  intros H. unfold RuleIdGenerator.inject_rule_id, RuleIdGenerator.inject_rule_id_run.
  rewrite H. simpl. unfold fresh_id, content_digest.
  destruct (assoc_mem py_eqb _ _); reflexivity.
Qed.

(** The entry has a rule id: it is counted, or cannot be hashed. *)
Lemma inject_rule_id_truthy rgen ent :
  truthy (dict_get_or_None "rule_id" ent) = true ->
  RuleIdGenerator.inject_rule_id rgen ent
  = if hashable (dict_get_or_None "rule_id" ent)
    then Ok ({| RuleIdGenerator._seen :=
                  RuleIdGenerator.count (dict_get_or_None "rule_id" ent)
                                        (RuleIdGenerator._seen rgen);
                RuleIdGenerator._rule_seq := S (RuleIdGenerator._rule_seq rgen) |},
             ent)
    else Err TypeError.
Proof.
  intros H. unfold RuleIdGenerator.inject_rule_id, RuleIdGenerator.inject_rule_id_run.
  rewrite H. simpl. now destruct (hashable _).
Qed.

(** After the call the entry has a rule id that is true and can be hashed,
    and no other key of it has changed. *)
Lemma inject_rule_id_post rgen ent rgen' ent' :
  RuleIdGenerator.inject_rule_id rgen ent = Ok (rgen', ent') ->
  truthy (dict_get_or_None "rule_id" ent') = true
  /\ hashable (dict_get_or_None "rule_id" ent') = true
  /\ RuleIdGenerator._rule_seq rgen' = S (RuleIdGenerator._rule_seq rgen)
  /\ (forall k, k <> "rule_id" -> dict_get k ent' = dict_get k ent)
  /\ ent' = (if truthy (dict_get_or_None "rule_id" ent) then ent
             else dict_set "rule_id" (PStr (fresh_id rgen ent)) ent).
Proof.
  destruct (truthy (dict_get_or_None "rule_id" ent)) eqn:E.
  - rewrite (inject_rule_id_truthy _ _ E).
    destruct (hashable _) eqn:Eh; [|discriminate].
    intros [= <- <-]. repeat split; auto.
  - rewrite (inject_rule_id_falsy _ _ E). intros [= <- <-].
    unfold dict_get_or_None. rewrite dict_get_set_same.
    repeat split; auto using fresh_id_truthy.
    intros k Hk. apply dict_get_set_other. congruence.
Qed.

(** *** Ids assigned in one load are distinct *)

Lemma tracked_step rgen ent rgen' ent' id :
  tracked rgen id ->
  RuleIdGenerator.inject_rule_id rgen ent = Ok (rgen', ent') ->
  tracked rgen' id.
Proof.
  intros [Hseen Hshape] H.
  assert (Hmono : assoc_mem py_eqb (PStr id) (RuleIdGenerator._seen rgen') = true
                  /\ RuleIdGenerator._rule_seq rgen' = S (RuleIdGenerator._rule_seq rgen)).
  { destruct (truthy (dict_get_or_None "rule_id" ent)) eqn:E.
    - rewrite (inject_rule_id_truthy _ _ E) in H.
      destruct (hashable _); [|discriminate]. injection H as <- <-. simpl.
      split; [|reflexivity]. now apply assoc_mem_set_mono.
    - rewrite (inject_rule_id_falsy _ _ E) in H. injection H as <- <-. simpl.
      split; [|reflexivity]. now apply assoc_mem_set_mono. }
  destruct Hmono as [Hseen' Hseq]. split; [exact Hseen'|].
  destruct Hshape as [Hlen | (h & n & -> & Hh & Hn)]; [now left|].
  right. exists h, n. repeat split; auto. lia.
Qed.

Lemma fresh_id_not_tracked rgen ent id : tracked rgen id -> fresh_id rgen ent <> id.
Proof.
  intros [Hseen Hshape] Heq. unfold fresh_id in Heq.
  destruct (assoc_mem py_eqb (PStr (content_digest ent)) (RuleIdGenerator._seen rgen))
    eqn:E.
  - assert (Hd : String.length (content_digest ent) = 32) by apply hexdigest_length.
    destruct Hshape as [Hlen | (h & n & -> & Hh & Hn)].
    + rewrite <- Heq, length_append, Hd in Hlen. simpl in Hlen. lia.
    + apply append_same_length in Heq as [_ Heq]; [|congruence].
      injection Heq as Heq. apply str_inj in Heq. lia.
  - subst id. congruence.
Qed.

Lemma fresh_id_tracked rgen ent rgen' ent' :
  truthy (dict_get_or_None "rule_id" ent) = false ->
  RuleIdGenerator.inject_rule_id rgen ent = Ok (rgen', ent') ->
  tracked rgen' (fresh_id rgen ent)
  /\ dict_get_or_None "rule_id" ent' = PStr (fresh_id rgen ent).
Proof.
  intros E H. rewrite (inject_rule_id_falsy _ _ E) in H. injection H as <- <-.
  split; [split|].
  - simpl. apply assoc_mem_set_same. simpl. apply String.eqb_refl.
  - simpl. unfold fresh_id.
    assert (Hd : String.length (content_digest ent) = 32) by apply hexdigest_length.
    destruct (assoc_mem py_eqb _ _); [|now left].
    right. exists (content_digest ent), (S (RuleIdGenerator._rule_seq rgen)).
    repeat split; auto.
  - unfold dict_get_or_None. now rewrite dict_get_set_same.
Qed.

Lemma inject_all_cons rgen ent rest rgen' out :
  inject_all rgen (ent :: rest) = Ok (rgen', out) ->
  exists rgen1 ent' rest',
    RuleIdGenerator.inject_rule_id rgen ent = Ok (rgen1, ent')
    /\ inject_all rgen1 rest = Ok (rgen', rest')
    /\ out = ent' :: rest'.
Proof.
  simpl. destruct (RuleIdGenerator.inject_rule_id rgen ent) as [[rgen1 ent']|];
    [|discriminate]. simpl.
  destruct (inject_all rgen1 rest) as [[rgen2 rest']|] eqn:E; [|discriminate]. simpl.
  intros [= <- <-]. now exists rgen1, ent', rest'.
Qed.

Lemma tracked_not_assigned_later ents : forall rgen rgen' ents' id,
  tracked rgen id ->
  inject_all rgen ents = Ok (rgen', ents') ->
  ~ In (PStr id) (assigned_ids ents ents').
Proof.
  induction ents as [|ent ents IH]; intros rgen rgen' ents' id Ht H.
  - simpl. tauto.
  - apply inject_all_cons in H as (rgen1 & ent' & rest' & H1 & H2 & ->). simpl.
    pose proof (tracked_step _ _ _ _ _ Ht H1) as Ht1.
    destruct (truthy (dict_get_or_None "rule_id" ent)) eqn:E.
    + now apply (IH _ _ _ _ Ht1 H2).
    + intros [Hhead | Htail].
      * destruct (fresh_id_tracked _ _ _ _ E H1) as [_ Hid].
        rewrite Hid in Hhead. injection Hhead as Hhead.
        now apply (fresh_id_not_tracked _ ent _ Ht).
      * now apply (IH _ _ _ _ Ht1 H2).
Qed.

Lemma assigned_ids_NoDup ents : forall rgen rgen' ents',
  inject_all rgen ents = Ok (rgen', ents') -> NoDup (assigned_ids ents ents').
Proof.
  induction ents as [|ent ents IH]; intros rgen rgen' ents' H.
  - simpl. constructor.
  - apply inject_all_cons in H as (rgen1 & ent' & rest' & H1 & H2 & ->). simpl.
    destruct (truthy (dict_get_or_None "rule_id" ent)) eqn:E.
    + now apply (IH _ _ _ H2).
    + destruct (fresh_id_tracked _ _ _ _ E H1) as [Ht Hid]. rewrite Hid.
      constructor; [|now apply (IH _ _ _ H2)].
      now apply (tracked_not_assigned_later _ _ _ _ _ Ht H2).
Qed.

Lemma inject_all_rule_seq ents : forall rgen rgen' ents',
  inject_all rgen ents = Ok (rgen', ents') ->
  RuleIdGenerator._rule_seq rgen' = RuleIdGenerator._rule_seq rgen + length ents.
Proof.
  induction ents as [|ent ents IH]; intros rgen rgen' ents' H.
  - injection H as <- _. simpl. lia.
  - apply inject_all_cons in H as (rgen1 & ent' & rest' & H1 & H2 & ->).
    rewrite (IH _ _ _ H2).
    destruct (inject_rule_id_post _ _ _ _ H1) as (_ & _ & -> & _). simpl. lia.
Qed.

Lemma inject_all_seen ents : forall rgen rgen' ents' k,
  assoc_mem py_eqb k (RuleIdGenerator._seen rgen) = true ->
  inject_all rgen ents = Ok (rgen', ents') ->
  assoc_mem py_eqb k (RuleIdGenerator._seen rgen') = true.
Proof.
  induction ents as [|ent ents IH]; intros rgen rgen' ents' k Hk H.
  - now injection H as <- _.
  - apply inject_all_cons in H as (rgen1 & ent' & rest' & H1 & H2 & ->).
    apply (IH _ _ _ k) in H2; [exact H2|].
    destruct (truthy (dict_get_or_None "rule_id" ent)) eqn:E.
    + rewrite (inject_rule_id_truthy _ _ E) in H1.
      destruct (hashable _); [|discriminate]. injection H1 as <- _. simpl.
      now apply assoc_mem_set_mono.
    + rewrite (inject_rule_id_falsy _ _ E) in H1. injection H1 as <- _. simpl.
      now apply assoc_mem_set_mono.
Qed.

(** ** Building rule sets, trees and engines *)

Section Building.
Context {Store : Type}.
Variable registry : list (RulePlugin.plugin_class Store).

Lemma RulePlugin_from_dict_ok data p data' :
  RulePlugin.from_dict registry data = Ok (p, data') ->
  data' = dict_del "rule" data
  /\ RulePlugin.args p = dict_del "rule" data
  /\ find (fun c => String.eqb (RulePlugin.plugin_name c)
                               (RulePlugin.name (RulePlugin.cls p))) registry
     = Some (RulePlugin.RuleClass (RulePlugin.cls p)).
Proof.
  unfold RulePlugin.from_dict.
  destruct (dict_get "rule" data) as [pname|]; [|discriminate].
  destruct pname as [| | |n| |]; simpl; try discriminate.
  destruct (find _ registry) as [[rc|n']|] eqn:Efind; simpl; try discriminate.
  intros [= <- <-]. repeat split. simpl.
  destruct (find_some _ _ Efind) as [_ Hname]. simpl in Hname.
  apply String.eqb_eq in Hname. now rewrite Hname.
Qed.

Lemma RuleSet_from_list_cons ent rest rgen rs rgen' out :
  RuleSet.from_list registry (ent :: rest) rgen = Ok (rs, rgen', out) ->
  exists rgen1 ent1 p lst rest',
    RuleIdGenerator.inject_rule_id rgen ent = Ok (rgen1, ent1)
    /\ RulePlugin.from_dict registry ent1 = Ok (p, dict_del "rule" ent1)
    /\ RuleSet.from_list registry rest rgen1 = Ok (lst, rgen', rest')
    /\ rs = p :: lst /\ out = dict_del "rule" ent1 :: rest'.
Proof.
  simpl.
  destruct (RuleIdGenerator.inject_rule_id rgen ent) as [[rgen1 ent1]|] eqn:E1;
    [|discriminate]. simpl.
  destruct (RulePlugin.from_dict registry ent1) as [[p ent2]|] eqn:E2;
    [|discriminate]. simpl.
  destruct (RuleSet.from_list registry rest rgen1) as [[[lst rgen2] rest']|] eqn:E3;
    [|discriminate]. simpl.
  intros [= <- <- <-].
  destruct (RulePlugin_from_dict_ok _ _ _ E2) as [-> _].
  now exists rgen1, ent1, p, lst, rest'.
Qed.

Lemma entry_built_inject rgen ent rgen1 ent1 :
  RuleIdGenerator.inject_rule_id rgen ent = Ok (rgen1, ent1) ->
  entry_built ent (dict_del "rule" ent1).
Proof.
  intros H. destruct (inject_rule_id_post _ _ _ _ H) as (_ & _ & _ & Hother & Hent1).
  split; [apply dict_get_del_same|]. split; [|split].
  - intros E. rewrite E in Hent1. subst ent1.
    apply dict_get_del_other. discriminate.
  - intros E. rewrite E in Hent1. subst ent1.
    exists (fresh_id rgen ent).
    rewrite dict_get_del_other by discriminate. apply dict_get_set_same.
  - intros k Hk1 Hk2. rewrite dict_get_del_other by congruence. now apply Hother.
Qed.

(** A rule set that is built: the generator has gone through the entries
    in order, each entry is left as [entry_built] says, and the plugins
    hold those entries as their [args]. *)
Lemma RuleSet_from_list_ok ruledata : forall rgen rs rgen' out,
  RuleSet.from_list registry ruledata rgen = Ok (rs, rgen', out) ->
  Forall2 entry_built ruledata out
  /\ map RulePlugin.args rs = out
  /\ Forall (well_built registry) rs
  /\ exists ents1, inject_all rgen ruledata = Ok (rgen', ents1)
                   /\ out = map (dict_del "rule") ents1.
Proof.
  induction ruledata as [|ent rest IH]; intros rgen rs rgen' out H.
  - injection H as <- <- <-. repeat split; try constructor. now exists [].
  - apply RuleSet_from_list_cons in H
      as (rgen1 & ent1 & p & lst & rest' & H1 & H2 & H3 & -> & ->).
    destruct (IH _ _ _ _ H3) as (Hbuilt & Hargs & Hwell & ents1 & Hall & Hout).
    destruct (RulePlugin_from_dict_ok _ _ _ H2) as (_ & Hp & Hfind).
    destruct (inject_rule_id_post _ _ _ _ H1) as (Htruthy & Hhash & _ & _ & _).
    split; [|split; [|split]].
    + constructor; [|exact Hbuilt]. now apply (entry_built_inject _ _ _ _ H1).
    + simpl. now rewrite Hp, Hargs.
    + constructor; [|exact Hwell]. unfold well_built. rewrite Hp.
      unfold dict_get_or_None in *.
      rewrite dict_get_del_same, dict_get_del_other by discriminate. auto.
    + exists (ent1 :: ents1). simpl. rewrite H1. simpl. rewrite Hall. simpl.
      now rewrite Hout.
Qed.

Lemma inject_all_app a : forall rgen rgen1 a' b rgen2 b',
  inject_all rgen a = Ok (rgen1, a') ->
  inject_all rgen1 b = Ok (rgen2, b') ->
  inject_all rgen (a ++ b) = Ok (rgen2, a' ++ b').
Proof.
  induction a as [|ent a IH]; intros rgen rgen1 a' b rgen2 b' Ha Hb.
  - now injection Ha as <- <-.
  - apply inject_all_cons in Ha as (rgen0 & ent' & rest' & H1 & H2 & ->).
    simpl. rewrite H1. simpl. now rewrite (IH _ _ _ _ _ _ H2 Hb).
Qed.

Lemma RuleTree_from_list_ok ruledefs : forall rgen tree rgen' out,
  RuleTree.from_list registry ruledefs rgen = Ok (tree, rgen', out) ->
  Forall2 (Forall2 entry_built) ruledefs out
  /\ Forall (Forall (well_built registry)) tree
  /\ exists ents1, inject_all rgen (concat ruledefs) = Ok (rgen', ents1)
                   /\ concat out = map (dict_del "rule") ents1.
Proof.
  induction ruledefs as [|ent rest IH]; intros rgen tree rgen' out H.
  - injection H as <- <- <-. repeat split; try constructor. now exists [].
  - simpl in H.
    destruct (RuleSet.from_list registry ent rgen) as [[[rset rgen1] ent']|] eqn:E1;
      [|discriminate]. simpl in H.
    destruct (RuleTree.from_list registry rest rgen1) as [[[ini rgen2] rest']|] eqn:E2;
      [|discriminate]. simpl in H. injection H as <- <- <-.
    destruct (RuleSet_from_list_ok _ _ _ _ _ E1) as (Hb1 & _ & Hw1 & e1 & Ha1 & Ho1).
    destruct (IH _ _ _ _ E2) as (Hb2 & Hw2 & e2 & Ha2 & Ho2).
    split; [now constructor|]. split; [now constructor|].
    exists (e1 ++ e2). split.
    + simpl. now apply inject_all_app with (rgen1 := rgen1).
    + simpl. now rewrite Ho1, Ho2, map_app.
Qed.

Lemma assoc_set_keys_In {K V : Type} (eqb : K -> K -> bool) k (v : V) d x :
  In x (map fst (assoc_set eqb k v d)) -> x = k \/ In x (map fst d).
Proof.
  induction d as [|[k' v'] d IH]; simpl.
  - intros [<-|[]]. now left.
  - destruct (eqb k k'); simpl; [tauto|].
    intros [<-|H]; [tauto|]. destruct (IH H); tauto.
Qed.

Lemma assoc_set_NoDup {K V : Type} (eqb : K -> K -> bool)
      (eqb_eq : forall a b, eqb a b = true <-> a = b) k (v : V) d :
  NoDup (map fst d) -> NoDup (map fst (assoc_set eqb k v d)).
Proof.
  induction d as [|[k' v'] d IH]; simpl; intros H.
  - constructor; [tauto | constructor].
  - destruct (eqb k k') eqn:E; simpl; [exact H|].
    inversion H as [|? ? Hnotin Hnodup]; subst.
    constructor; [|now apply IH].
    intros Hin. apply assoc_set_keys_In in Hin as [->|Hin]; [|tauto].
    rewrite (proj2 (eqb_eq k k) eq_refl) in E. discriminate.
Qed.

Lemma assoc_set_Forall {K V : Type} (eqb : K -> K -> bool) (Q : V -> Prop)
      k (v : V) d :
  Q v -> Forall (fun kv => Q (snd kv)) d ->
  Forall (fun kv => Q (snd kv)) (assoc_set eqb k v d).
Proof.
  intros Hv. induction d as [|[k' v'] d IH]; simpl; intros H.
  - now constructor.
  - inversion H; subst. destruct (eqb k k'); constructor; auto.
Qed.

(** An engine that is built, from any point of the loop of [from_dict]. *)
Lemma RuleEngine_from_items_ok items : forall rgen acc rule_map rgen' out,
  RuleEngine.from_items registry items rgen acc = Ok (rule_map, rgen', out) ->
  config_built items out
  /\ (NoDup (map fst acc) -> NoDup (map fst rule_map))
  /\ (Forall (fun kt => Forall (Forall (well_built registry)) (snd kt)) acc ->
      Forall (fun kt => Forall (Forall (well_built registry)) (snd kt)) rule_map)
  /\ exists ents1, inject_all rgen (entries items) = Ok (rgen', ents1)
                   /\ entries out = map (dict_del "rule") ents1.
Proof.
  induction items as [|[rtype treedef] rest IH]; intros rgen acc rule_map rgen' out H.
  - injection H as <- <- <-. repeat split; auto; try constructor. now exists [].
  - simpl in H.
    destruct (RequestTypes.of_value rtype) as [r|]; [|discriminate]. simpl in H.
    destruct (RuleTree.from_list registry treedef rgen)
      as [[[tree rgen1] treedef']|] eqn:E1; [|discriminate]. simpl in H.
    destruct (RuleEngine.from_items registry rest rgen1
                (assoc_set RequestTypes.eqb r tree acc))
      as [[[rule_map' rgen2] rest']|] eqn:E2; [|discriminate].
    simpl in H. injection H as <- <- <-.
    destruct (RuleTree_from_list_ok _ _ _ _ _ E1) as (Hb1 & Hw1 & e1 & Ha1 & Ho1).
    destruct (IH _ _ _ _ _ E2) as (Hb2 & Hnd & Hw2 & e2 & Ha2 & Ho2).
    split; [|split; [|split]].
    + constructor; [now split | exact Hb2].
    + intros Hacc. apply Hnd. now apply (assoc_set_NoDup _ RequestTypes_eqb_eq).
    + intros Hacc. apply Hw2. now apply assoc_set_Forall.
    + exists (e1 ++ e2). unfold entries in *. simpl. rewrite !concat_app. split.
      * now apply inject_all_app with (rgen1 := rgen1).
      * now rewrite Ho1, Ho2, map_app.
Qed.

End Building.

(** ** Serializing an engine and building it again *)

Lemma of_value_value (r : RequestType) :
  RequestTypes.of_value (RequestTypes.value r) = Ok r.
Proof. destruct r; reflexivity. Qed.

Lemma value_inj (a b : RequestType) :
  RequestTypes.value a = RequestTypes.value b -> a = b.
Proof.
  intros H. pose proof (of_value_value a) as Ha. rewrite H, of_value_value in Ha.
  congruence.
Qed.

(** Storing items whose keys are new and distinct appends them in order. *)
Lemma fold_set_fresh {K V A : Type} (eqb : K -> K -> bool)
      (eqb_eq : forall a b, eqb a b = true <-> a = b)
      (key : A -> K) (val : A -> V) (m : list A) : forall acc,
  NoDup (map fst acc ++ map key m) ->
  fold_left (fun d x => assoc_set eqb (key x) (val x) d) m acc
  = acc ++ map (fun x => (key x, val x)) m.
Proof.
  induction m as [|x m IH]; intros acc H; simpl.
  - now rewrite app_nil_r.
  - simpl in H. rewrite (assoc_set_new eqb).
    + rewrite IH.
      * now rewrite <- app_assoc.
      * rewrite map_app, <- app_assoc. exact H.
    + apply (assoc_get_not_In eqb eqb_eq). intros Hin.
      apply NoDup_remove_2 in H. apply H. apply in_or_app. now left.
Qed.

Section Rebuilding.
Context {Store : Type}.
Variable registry : list (RulePlugin.plugin_class Store).

Lemma RulePlugin_rebuild (p : RulePlugin.t Store) rgen :
  well_built registry p ->
  (exists rgen', RuleIdGenerator.inject_rule_id rgen (RulePlugin.to_dict p)
                 = Ok (rgen', RulePlugin.to_dict p))
  /\ RulePlugin.from_dict registry (RulePlugin.to_dict p)
     = Ok (p, RulePlugin.args p).
Proof.
  intros (Hfind & Hrule & Htruthy & Hhash). unfold RulePlugin.to_dict. split.
  - assert (Hid : dict_get_or_None "rule_id"
                    (dict_set "rule" (PStr (RulePlugin.name (RulePlugin.cls p)))
                              (RulePlugin.args p))
                  = dict_get_or_None "rule_id" (RulePlugin.args p)).
    { unfold dict_get_or_None. now rewrite dict_get_set_other by discriminate. }
    rewrite inject_rule_id_truthy by now rewrite Hid.
    rewrite Hid, Hhash. eauto.
  - unfold RulePlugin.from_dict. rewrite dict_get_set_same.
    rewrite (dict_del_set_absent _ _ _ Hrule). simpl. rewrite Hfind. simpl.
    now destruct p.
Qed.

Lemma RuleSet_rebuild (rs : RuleSet.t Store) :
  Forall (well_built registry) rs ->
  forall rgen, exists rgen',
    RuleSet.from_list registry (RuleSet.to_list rs) rgen
    = Ok (rs, rgen', map RulePlugin.args rs).
Proof.
  unfold RuleSet.to_list.
  induction 1 as [|p rs Hp Hrs IH]; intros rgen.
  - now exists rgen.
  - destruct (RulePlugin_rebuild p rgen Hp) as [[rgen1 H1] H2].
    destruct (IH rgen1) as [rgen2 H3]. exists rgen2.
    cbn [map RuleSet.from_list]. rewrite H1. cbn [bind]. rewrite H2. cbn [bind].
    rewrite H3. reflexivity.
Qed.

Lemma RuleTree_rebuild (tree : RuleTree.t Store) :
  Forall (Forall (well_built registry)) tree ->
  forall rgen, exists rgen',
    RuleTree.from_list registry (RuleTree.to_list tree) rgen
    = Ok (tree, rgen', map (map RulePlugin.args) tree).
Proof.
  unfold RuleTree.to_list.
  induction 1 as [|rs tree Hrs Htree IH]; intros rgen.
  - now exists rgen.
  - destruct (RuleSet_rebuild rs Hrs rgen) as [rgen1 H1].
    destruct (IH rgen1) as [rgen2 H2]. exists rgen2.
    cbn [map RuleTree.from_list]. rewrite H1. cbn [bind]. rewrite H2. reflexivity.
Qed.

Lemma RuleEngine_rebuild_items (m : list (RequestType * RuleTree.t Store)) :
  Forall (fun kt => Forall (Forall (well_built registry)) (snd kt)) m ->
  forall rgen acc, exists rgen' out,
    RuleEngine.from_items registry
      (map (fun kt => (RequestTypes.value (fst kt), RuleTree.to_list (snd kt))) m)
      rgen acc
    = Ok (fold_left (fun d kt => assoc_set RequestTypes.eqb (fst kt) (snd kt) d) m acc,
          rgen', out).
Proof.
  induction 1 as [|[r tree] m Hkt Hm IH]; intros rgen acc.
  - now exists rgen, [].
  - destruct (RuleTree_rebuild tree Hkt rgen) as [rgen1 H1].
    destruct (IH rgen1 (@assoc_set RequestType (RuleTree.t Store)
                                   RequestTypes.eqb r tree acc))
      as (rgen2 & out & H2).
    cbn [map RuleEngine.from_items fst snd fold_left].
    rewrite of_value_value. cbn [bind]. rewrite H1. cbn [bind]. cbv zeta.
    rewrite H2. cbn [bind]. eauto.
Qed.

Lemma to_dict_items (eng : RuleEngine.t Store) :
  NoDup (map fst (RuleEngine.map eng)) ->
  RuleEngine.to_dict eng
  = map (fun kt => (RequestTypes.value (fst kt), RuleTree.to_list (snd kt)))
        (RuleEngine.map eng).
Proof.
  intros H. unfold RuleEngine.to_dict.
  rewrite (fold_set_fresh String.eqb String.eqb_eq
             (fun kt => RequestTypes.value (fst kt))
             (fun kt : RequestType * RuleTree.t Store => RuleTree.to_list (snd kt))).
  - reflexivity.
  - simpl. rewrite <- (map_map fst RequestTypes.value).
    apply Finite.Injective_map_NoDup; [|exact H].
    intros a b. apply value_inj.
Qed.

(** An engine that [from_dict] has built is built again from what
    [to_dict] gives of it. *)
Lemma RuleEngine_rebuild info eng info1 :
  RuleEngine.from_dict registry info = Ok (eng, info1) ->
  exists info2,
    RuleEngine.from_dict registry (RuleEngine.to_dict eng) = Ok (eng, info2).
Proof.
  unfold RuleEngine.from_dict.
  destruct (RuleEngine.from_items registry info RuleIdGenerator.init [])
    as [[[rule_map rgen] out]|] eqn:E; [|discriminate]. simpl.
  intros [= <- <-].
  destruct (RuleEngine_from_items_ok _ _ _ _ _ _ _ E) as (_ & Hnd & Hw & _).
  specialize (Hnd (NoDup_nil _)). specialize (Hw (Forall_nil _)).
  rewrite to_dict_items by exact Hnd. simpl.
  destruct (RuleEngine_rebuild_items rule_map Hw RuleIdGenerator.init [])
    as (rgen' & out' & H).
  rewrite H. simpl. exists out'.
  rewrite (fold_set_fresh RequestTypes.eqb RequestTypes_eqb_eq fst snd) by exact Hnd.
  simpl. rewrite map_ext with (g := fun x => x) by (now intros []).
  now rewrite map_id.
Qed.

End Rebuilding.

(** ** The canonical encoding does not depend on key order *)

Lemma ltb_lt (a b : string) : String.ltb a b = true <-> OrderedTypeEx.String_as_OT.lt a b.
Proof.
  rewrite <- OrderedTypeEx.String_as_OT.cmp_lt.
  unfold String.ltb, OrderedTypeEx.String_as_OT.cmp.
  destruct (String.compare a b); split; intros H; (reflexivity || discriminate).
Qed.

Lemma ltb_trans (a b c : string) :
  String.ltb a b = true -> String.ltb b c = true -> String.ltb a c = true.
Proof.
  rewrite !ltb_lt. apply OrderedTypeEx.String_as_OT.lt_trans.
Qed.

Lemma ltb_asym (a b : string) : String.ltb a b = true -> String.ltb b a = false.
Proof.
  unfold String.ltb. rewrite (String.compare_antisym b a).
  destruct (String.compare a b); simpl; intros H; (reflexivity || discriminate).
Qed.

Lemma ltb_total (a b : string) :
  a <> b -> String.ltb a b = false -> String.ltb b a = true.
Proof.
  unfold String.ltb. rewrite (String.compare_antisym b a).
  destruct (String.compare a b) eqn:E; simpl; intros Hne H;
    try reflexivity; try discriminate.
  now apply String.compare_eq_iff in E.
Qed.

Section SortItems.
Context {A : Type}.
Implicit Types (a b : string * A) (l : list (string * A)).

Lemma insert_item_comm a b l :
  fst a <> fst b ->
  Json.insert_item a (Json.insert_item b l) = Json.insert_item b (Json.insert_item a l).
Proof.
  intros Hne. induction l as [|c l IH]; simpl.
  - destruct (String.ltb (fst a) (fst b)) eqn:Eab.
    + now rewrite (ltb_asym _ _ Eab).
    + now rewrite (ltb_total _ _ Hne Eab).
  - destruct (String.ltb (fst b) (fst c)) eqn:Ebc;
      destruct (String.ltb (fst a) (fst c)) eqn:Eac; simpl.
    + destruct (String.ltb (fst a) (fst b)) eqn:Eab.
      * now rewrite (ltb_asym _ _ Eab), Ebc.
      * now rewrite (ltb_total _ _ Hne Eab), Eac.
    + destruct (String.ltb (fst a) (fst b)) eqn:Eab.
      * rewrite (ltb_trans _ _ _ Eab Ebc) in Eac. discriminate.
      * now rewrite Eac, Ebc.
    + rewrite Eac. destruct (String.ltb (fst b) (fst a)) eqn:Eba.
      * rewrite (ltb_trans _ _ _ Eba Eac) in Ebc. discriminate.
      * now rewrite Ebc.
    + now rewrite Eac, Ebc, IH.
Qed.

Lemma sort_items_perm l l' :
  Permutation l l' -> NoDup (map fst l) -> Json.sort_items l = Json.sort_items l'.
Proof.
  induction 1 as [|x l l' Hperm IH|x y l|l l' l'' H1 IH1 H2 IH2]; intros Hnd; simpl.
  - reflexivity.
  - inversion Hnd; subst. now rewrite IH.
  - apply insert_item_comm. inversion Hnd as [|? ? Hnotin _]; subst.
    intros Heq. apply Hnotin. left. now symmetry.
  - rewrite IH1 by exact Hnd. apply IH2.
    apply (Permutation_NoDup (l := map fst l)); [|exact Hnd].
    now apply Permutation_map.
Qed.
End SortItems.

(** Two dicts with the same items, in any order, have one digest. *)
Lemma content_digest_perm (ent ent' : dict) :
  Permutation ent ent' -> NoDup (map fst ent) ->
  content_digest ent = content_digest ent'.
Proof.
  intros Hperm Hnd. unfold content_digest. simpl.
  rewrite (sort_items_perm (map (fun kv => (fst kv, Json.dumps (snd kv))) ent)
                           (map (fun kv => (fst kv, Json.dumps (snd kv))) ent')).
  - reflexivity.
  - now apply Permutation_map.
  - now rewrite map_map.
Qed.

(** ** Rule ids *)

Lemma dict_get_or_None_del_rule (ent : dict) :
  dict_get_or_None "rule_id" (dict_del "rule" ent) = dict_get_or_None "rule_id" ent.
Proof. unfold dict_get_or_None. now rewrite dict_get_del_other by discriminate. Qed.

Lemma assigned_ids_del_rule before : forall after,
  assigned_ids before (map (dict_del "rule") after) = assigned_ids before after.
Proof.
  induction before as [|e before IH]; intros [|e' after]; simpl; try reflexivity.
  rewrite IH, dict_get_or_None_del_rule. reflexivity.
Qed.

(** X14: an entry without a ["rule_id"] key gets the hex MD5
    digest of its canonical JSON encoding (keys sorted, compact separators:
    the digest does not depend on the order of the keys), or that digest, a
    dot and the current sequence number when the digest is already in
    [_seen].  Of two equal entries the first, met when its digest is not in
    [_seen], gets the digest, and the second gets the digest, a dot and its
    own sequence number.  The ids assigned in one load are pairwise
    distinct. *)
Theorem inject_rule_id_assigns_digest :
  (forall rgen ent,
      dict_get "rule_id" ent = None ->
      let h := MD5.hexdigest (Json.dumps (PDict ent)) in
      let seq := S (RuleIdGenerator._rule_seq rgen) in
      let id := if assoc_mem py_eqb (PStr h) (RuleIdGenerator._seen rgen)
                then (h ++ "." ++ RuleIdGenerator.str seq)%string else h in
      exists rgen',
        RuleIdGenerator.inject_rule_id rgen ent
        = Ok (rgen', dict_set "rule_id" (PStr id) ent)
        /\ dict_get "rule_id" (dict_set "rule_id" (PStr id) ent) = Some (PStr id)
        /\ RuleIdGenerator._rule_seq rgen' = seq
        /\ assoc_mem py_eqb (PStr id) (RuleIdGenerator._seen rgen') = true)
  /\ (forall ent ent',
         Permutation ent ent' -> NoDup (map fst ent) ->
         MD5.hexdigest (Json.dumps (PDict ent)) = MD5.hexdigest (Json.dumps (PDict ent')))
  /\ (forall rgen ent rgen1 ent1 mid rgen2 mid',
         dict_get "rule_id" ent = None ->
         assoc_mem py_eqb (PStr (content_digest ent)) (RuleIdGenerator._seen rgen) = false ->
         RuleIdGenerator.inject_rule_id rgen ent = Ok (rgen1, ent1) ->
         inject_all rgen1 mid = Ok (rgen2, mid') ->
         dict_get "rule_id" ent1 = Some (PStr (content_digest ent))
         /\ exists rgen3,
             RuleIdGenerator.inject_rule_id rgen2 ent
             = Ok (rgen3,
                   dict_set "rule_id"
                     (PStr (content_digest ent ++ "."
                            ++ RuleIdGenerator.str
                                 (RuleIdGenerator._rule_seq rgen + 2 + length mid)))
                     ent))
  /\ (forall rgen ents rgen' ents',
         inject_all rgen ents = Ok (rgen', ents') ->
         NoDup (assigned_ids ents ents'))
  /\ (forall (Store : Type) (registry : list (RulePlugin.plugin_class Store))
             info eng info',
         RuleEngine.from_dict registry info = Ok (eng, info') ->
         NoDup (assigned_ids (entries info) (entries info'))).
Proof.
  split; [|split; [|split; [|split]]].
  - intros rgen ent Hnone h seq id.
    assert (E : truthy (dict_get_or_None "rule_id" ent) = false).
    { unfold dict_get_or_None. now rewrite Hnone. }
    pose proof (inject_rule_id_falsy rgen ent E) as H.
    change (PStr (fresh_id rgen ent)) with (PStr id) in H.
    eexists. split; [exact H|]. split; [apply dict_get_set_same|].
    split; [reflexivity|]. simpl. apply assoc_mem_set_same. simpl.
    apply String.eqb_refl.
  - exact content_digest_perm.
  - intros rgen ent rgen1 ent1 mid rgen2 mid' Hnone Hfresh H1 H2.
    assert (E : truthy (dict_get_or_None "rule_id" ent) = false).
    { unfold dict_get_or_None. now rewrite Hnone. }
    assert (Hid : fresh_id rgen ent = content_digest ent).
    { unfold fresh_id. now rewrite Hfresh. }
    destruct (fresh_id_tracked _ _ _ _ E H1) as [[Hseen _] _]. rewrite Hid in Hseen.
    pose proof (inject_rule_id_post _ _ _ _ H1) as (_ & _ & Hseq1 & _ & Hent1).
    rewrite E, Hid in Hent1. split.
    + subst ent1. apply dict_get_set_same.
    + pose proof (inject_all_seen _ _ _ _ _ Hseen H2) as Hseen2.
      pose proof (inject_all_rule_seq _ _ _ _ H2) as Hseq2.
      pose proof (inject_rule_id_falsy rgen2 ent E) as H3.
      unfold fresh_id in H3 at 2. rewrite Hseen2 in H3.
      replace (S (RuleIdGenerator._rule_seq rgen2))
        with (RuleIdGenerator._rule_seq rgen + 2 + length mid) in H3 by lia.
      eexists. exact H3.
  - intros rgen ents rgen' ents'. apply assigned_ids_NoDup.
  - intros Store registry info eng info'. unfold RuleEngine.from_dict.
    destruct (RuleEngine.from_items registry info RuleIdGenerator.init [])
      as [[[rule_map rgen] out]|] eqn:E; [|discriminate]. simpl.
    intros [= <- <-].
    destruct (RuleEngine_from_items_ok _ _ _ _ _ _ _ E) as (_ & _ & _ & ents1 & Hall & ->).
    rewrite assigned_ids_del_rule. now apply (assigned_ids_NoDup _ _ _ _ Hall).
Qed.

Lemma inject_rule_id_assigns_digest_witness :
  dict_get "rule_id" Stubs.geo_entry = None
  /\ assoc_mem py_eqb (PStr (content_digest Stubs.geo_entry))
                      (RuleIdGenerator._seen RuleIdGenerator.init) = false
  /\ RuleIdGenerator.inject_rule_id RuleIdGenerator.init Stubs.geo_entry
     = Ok ({| RuleIdGenerator._seen := [(PStr "9e9051585ff2a312a064fd6a9b2bc314", 1)];
              RuleIdGenerator._rule_seq := 1 |},
           [("rule", PStr "allow"); ("radius", PInt 5);
            ("rule_id", PStr "9e9051585ff2a312a064fd6a9b2bc314")])
  /\ inject_all {| RuleIdGenerator._seen := [(PStr "9e9051585ff2a312a064fd6a9b2bc314", 1)];
                   RuleIdGenerator._rule_seq := 1 |}
                [Stubs.named_entry]
     = Ok ({| RuleIdGenerator._seen := [(PStr "9e9051585ff2a312a064fd6a9b2bc314", 1);
                                        (PStr "office-hours", 1)];
              RuleIdGenerator._rule_seq := 2 |},
           [Stubs.named_entry])
  /\ exists rgen3,
      RuleIdGenerator.inject_rule_id
        {| RuleIdGenerator._seen := [(PStr "9e9051585ff2a312a064fd6a9b2bc314", 1);
                                     (PStr "office-hours", 1)];
           RuleIdGenerator._rule_seq := 2 |}
        Stubs.geo_entry
      = Ok (rgen3,
            dict_set "rule_id"
              (PStr (content_digest Stubs.geo_entry ++ "." ++ RuleIdGenerator.str 3))
              Stubs.geo_entry).
Proof.
  assert (H0 : dict_get "rule_id" Stubs.geo_entry = None) by reflexivity.
  assert (H1 : assoc_mem py_eqb (PStr (content_digest Stubs.geo_entry))
                         (RuleIdGenerator._seen RuleIdGenerator.init) = false)
    by reflexivity.
  assert (H2 : RuleIdGenerator.inject_rule_id RuleIdGenerator.init Stubs.geo_entry
               = Ok ({| RuleIdGenerator._seen :=
                          [(PStr "9e9051585ff2a312a064fd6a9b2bc314", 1)];
                        RuleIdGenerator._rule_seq := 1 |},
                     [("rule", PStr "allow"); ("radius", PInt 5);
                      ("rule_id", PStr "9e9051585ff2a312a064fd6a9b2bc314")]))
    by (vm_compute; reflexivity).
  assert (H3 : inject_all
                 {| RuleIdGenerator._seen :=
                      [(PStr "9e9051585ff2a312a064fd6a9b2bc314", 1)];
                    RuleIdGenerator._rule_seq := 1 |}
                 [Stubs.named_entry]
               = Ok ({| RuleIdGenerator._seen :=
                          [(PStr "9e9051585ff2a312a064fd6a9b2bc314", 1);
                           (PStr "office-hours", 1)];
                        RuleIdGenerator._rule_seq := 2 |},
                     [Stubs.named_entry]))
    by (vm_compute; reflexivity).
  split; [exact H0|]. split; [exact H1|]. split; [exact H2|]. split; [exact H3|].
  exact (proj2 (proj1 (proj2 (proj2 inject_rule_id_assigns_digest))
                      _ _ _ _ _ _ _ H0 H1 H2 H3)).
Defined.

(** C5: the rule ids of one load are not all distinct, against the
    docstrings of [RuleIdGenerator] ("manage unique rule id generation",
    "ensures uniqueness").  A copy of a saved rule, pasted without its id
    before the rule: the id the load assigns to the copy is the digest the
    saved rule carries as its id, and the engine holds two rules with one
    rule id. *)
Lemma assigned_id_shared_with_explicit_id :
  dict_get "rule_id" Stubs.geo_entry = None
  /\ dict_get "rule_id" Stubs.saved_geo_entry
     = Some (PStr "9e9051585ff2a312a064fd6a9b2bc314")
  /\ inject_all RuleIdGenerator.init [Stubs.geo_entry; Stubs.saved_geo_entry]
     = Ok ({| RuleIdGenerator._seen := [(PStr "9e9051585ff2a312a064fd6a9b2bc314", 2)];
              RuleIdGenerator._rule_seq := 2 |},
           [[("rule", PStr "allow"); ("radius", PInt 5);
             ("rule_id", PStr "9e9051585ff2a312a064fd6a9b2bc314")];
            Stubs.saved_geo_entry])
  /\ match RuleEngine.from_dict Stubs.registry
             [("decrypt", [[Stubs.geo_entry]; [Stubs.saved_geo_entry]])] with
     | Ok (eng, _) =>
         map (fun p => dict_get "rule_id" (RulePlugin.args p)) (engine_rules eng)
         = [Some (PStr "9e9051585ff2a312a064fd6a9b2bc314");
            Some (PStr "9e9051585ff2a312a064fd6a9b2bc314")]
     | Err _ => False
     end.
Proof.
  split; [reflexivity|]. split; [reflexivity|].
  split; vm_compute; reflexivity.
Qed.

(** C10: an entry whose ["rule_id"] key is there with a false value (the
    empty string, [None], [0], an empty list) is treated as one without a
    rule id: the value is replaced by a fresh id, the digest of the entry
    as it stands, or that digest, a dot and the sequence number. *)
Theorem inject_rule_id_overwrites_falsy rgen ent v :
  dict_get "rule_id" ent = Some v ->
  truthy v = false ->
  let h := MD5.hexdigest (Json.dumps (PDict ent)) in
  let id := if assoc_mem py_eqb (PStr h) (RuleIdGenerator._seen rgen)
            then (h ++ "." ++ RuleIdGenerator.str (S (RuleIdGenerator._rule_seq rgen)))%string
            else h in
  exists rgen',
    RuleIdGenerator.inject_rule_id rgen ent
    = Ok (rgen', dict_set "rule_id" (PStr id) ent)
    /\ dict_get "rule_id" (dict_set "rule_id" (PStr id) ent) = Some (PStr id)
    /\ PStr id <> v
    /\ truthy (PStr id) = true.
Proof.
  intros Hget Hfalse h id.
  assert (E : truthy (dict_get_or_None "rule_id" ent) = false).
  { unfold dict_get_or_None. now rewrite Hget. }
  pose proof (inject_rule_id_falsy rgen ent E) as H.
  pose proof (fresh_id_truthy rgen ent) as Ht.
  change (fresh_id rgen ent) with id in H, Ht.
  eexists. split; [exact H|]. split; [apply dict_get_set_same|]. split; [|exact Ht].
  intros <-. rewrite Ht in Hfalse. discriminate.
Qed.

Lemma inject_rule_id_overwrites_falsy_witness :
  dict_get "rule_id" Stubs.blank_id_entry = Some (PStr EmptyString)
  /\ truthy (PStr EmptyString) = false
  /\ exists rgen',
      RuleIdGenerator.inject_rule_id RuleIdGenerator.init Stubs.blank_id_entry
      = Ok (rgen',
            [("rule", PStr "allow");
             ("rule_id", PStr "0d3dc811e94678e0c2cd670409dc248d")]).
Proof.
  split; [reflexivity|]. split; [reflexivity|].
  destruct (inject_rule_id_overwrites_falsy
              RuleIdGenerator.init Stubs.blank_id_entry (PStr EmptyString)
              eq_refl eq_refl) as (rgen' & H & _).
  exists rgen'. etransitivity; [exact H|].
  apply (f_equal Ok). apply (f_equal (pair rgen')). vm_compute. reflexivity.
Defined.

(** C6 (as amended): an entry whose ["rule_id"] is a true value is left as
    it is by [inject_rule_id], whether the call returns or raises; it
    returns when the value can be hashed and raises [TypeError]
    otherwise. *)
Theorem inject_rule_id_keeps_rule_id rgen ent v :
  dict_get "rule_id" ent = Some v ->
  truthy v = true ->
  snd (RuleIdGenerator.inject_rule_id_run rgen ent) = ent
  /\ (forall rgen' ent',
         RuleIdGenerator.inject_rule_id rgen ent = Ok (rgen', ent') -> ent' = ent)
  /\ (hashable v = true ->
      exists rgen', RuleIdGenerator.inject_rule_id rgen ent = Ok (rgen', ent))
  /\ (hashable v = false ->
      RuleIdGenerator.inject_rule_id rgen ent = Err TypeError
      /\ fst (fst (RuleIdGenerator.inject_rule_id_run rgen ent)) = Some TypeError).
Proof.
  intros Hget Htrue.
  assert (Hv : dict_get_or_None "rule_id" ent = v).
  { unfold dict_get_or_None. now rewrite Hget. }
  assert (E : truthy (dict_get_or_None "rule_id" ent) = true) by now rewrite Hv.
  split.
  - unfold RuleIdGenerator.inject_rule_id_run. rewrite E. simpl.
    now destruct (hashable _).
  - rewrite (inject_rule_id_truthy _ _ E), Hv. split; [|split].
    + intros rgen' ent'. destruct (hashable v); [|discriminate]. now intros [= _ <-].
    + intros ->. eauto.
    + intros Hh. rewrite Hh. split; [reflexivity|].
      unfold RuleIdGenerator.inject_rule_id_run. rewrite E, Hv, Hh. reflexivity.
Qed.

Lemma inject_rule_id_keeps_rule_id_witness :
  dict_get "rule_id" Stubs.named_entry = Some (PStr "office-hours")
  /\ truthy (PStr "office-hours") = true
  /\ hashable (PStr "office-hours") = true
  /\ exists rgen',
      RuleIdGenerator.inject_rule_id RuleIdGenerator.init Stubs.named_entry
      = Ok (rgen', Stubs.named_entry).
Proof.
  split; [reflexivity|]. split; [reflexivity|]. split; [reflexivity|].
  exact (proj1 (proj2 (proj2 (inject_rule_id_keeps_rule_id
                                RuleIdGenerator.init Stubs.named_entry
                                (PStr "office-hours") eq_refl eq_refl)))
               eq_refl).
Defined.

(** A rule id that is a list: the call raises [TypeError] at the count,
    after the sequence number has moved, and the entry is as it was. *)
Example inject_rule_id_unhashable_id :
  RuleIdGenerator.inject_rule_id_run
    RuleIdGenerator.init
    [("rule", PStr "allow"); ("rule_id", PList [PInt 1])]
  = (Some TypeError,
     {| RuleIdGenerator._seen := []; RuleIdGenerator._rule_seq := 1 |},
     [("rule", PStr "allow"); ("rule_id", PList [PInt 1])])
  /\ RuleIdGenerator.inject_rule_id
       RuleIdGenerator.init
       [("rule", PStr "allow"); ("rule_id", PList [PInt 1])]
     = Err TypeError.
Proof. split; reflexivity. Qed.

(** An entry that carries the key ["rule_id"] with the empty string for
    value is modified. *)
Lemma inject_rule_id_modifies_blank_id :
  dict_mem "rule_id" Stubs.blank_id_entry = true
  /\ RuleIdGenerator.inject_rule_id RuleIdGenerator.init Stubs.blank_id_entry
     = Ok ({| RuleIdGenerator._seen := [(PStr "0d3dc811e94678e0c2cd670409dc248d", 1)];
              RuleIdGenerator._rule_seq := 1 |},
           [("rule", PStr "allow");
            ("rule_id", PStr "0d3dc811e94678e0c2cd670409dc248d")])
  /\ [("rule", PStr "allow"); ("rule_id", PStr "0d3dc811e94678e0c2cd670409dc248d")]
     <> Stubs.blank_id_entry.
Proof.
  split; [reflexivity|]. split; [vm_compute; reflexivity | discriminate].
Qed.

(** ** What a build leaves of the policy, and building twice *)

Lemma entries_to_dict {Store : Type} (eng : RuleEngine.t Store) :
  NoDup (map fst (RuleEngine.map eng)) ->
  entries (RuleEngine.to_dict eng) = map RulePlugin.to_dict (engine_rules eng).
Proof.
  intros Hnd. rewrite (to_dict_items eng Hnd). unfold entries, engine_rules.
  rewrite !concat_map. f_equal. f_equal. rewrite !map_map.
  apply map_ext. now intros [r tree].
Qed.

Section BuildProperties.
Context {Store : Type}.
Variable registry : list (RulePlugin.plugin_class Store).


(** C9: when a policy builds into an engine, what [to_dict] gives of that
    engine builds again, into the same engine: the same trees of the same
    rules with the same [args].  The two engines decide every request
    alike, and every rule of the second has the rule id its entry had in
    the serialized policy. *)
Theorem build_to_dict_build info (eng : RuleEngine.t Store) info1 :
  RuleEngine.from_dict registry info = Ok (eng, info1) ->
  exists eng2 info2,
    RuleEngine.from_dict registry (RuleEngine.to_dict eng) = Ok (eng2, info2)
    /\ eng2 = eng
    /\ (forall request w,
           RuleEngine.approve_request eng2 request w
           = RuleEngine.approve_request eng request w)
    /\ map (fun p => dict_get "rule_id" (RulePlugin.args p)) (engine_rules eng2)
       = map (dict_get "rule_id") (entries (RuleEngine.to_dict eng))
    /\ Forall (fun ent => truthy (dict_get_or_None "rule_id" ent) = true)
              (entries (RuleEngine.to_dict eng)).
Proof.
  intros H. destruct (RuleEngine_rebuild registry _ _ _ H) as [info2 H2].
  exists eng, info2. split; [exact H2|]. split; [reflexivity|].
  split; [reflexivity|].
  unfold RuleEngine.from_dict in H.
  destruct (RuleEngine.from_items registry info RuleIdGenerator.init [])
    as [[[rule_map rgen] out]|] eqn:E; [|discriminate]. simpl in H.
  injection H as <- <-.
  destruct (RuleEngine_from_items_ok _ _ _ _ _ _ _ E) as (_ & Hnd & Hw & _).
  specialize (Hnd (NoDup_nil _)). specialize (Hw (Forall_nil _)).
  rewrite entries_to_dict by exact Hnd. rewrite map_map. split.
  - apply map_ext. intros p. unfold RulePlugin.to_dict.
    now rewrite dict_get_set_other by discriminate.
  - apply Forall_forall. intros ent Hin.
    apply in_map_iff in Hin as (p & <- & Hp).
    unfold engine_rules in Hp. simpl in Hp.
    apply in_concat in Hp as (rset & Hrset & Hp).
    apply in_concat in Hrset as (tree & Htree & Hrset).
    apply in_map_iff in Htree as (kt & <- & Hkt).
    rewrite Forall_forall in Hw. specialize (Hw _ Hkt).
    rewrite Forall_forall in Hw. specialize (Hw _ Hrset).
    rewrite Forall_forall in Hw. destruct (Hw _ Hp) as (_ & _ & Ht & _).
    unfold RulePlugin.to_dict, dict_get_or_None in *.
    now rewrite dict_get_set_other by discriminate.
Qed.

End BuildProperties.



Lemma build_to_dict_build_witness :
  RuleEngine.from_dict Stubs.registry Stubs.policy
  = Ok (Stubs.policy_engine, Stubs.policy_built)
  /\ exists info2,
      RuleEngine.from_dict Stubs.registry (RuleEngine.to_dict Stubs.policy_engine)
      = Ok (Stubs.policy_engine, info2).
Proof.
  assert (H : RuleEngine.from_dict Stubs.registry Stubs.policy
              = Ok (Stubs.policy_engine, Stubs.policy_built))
    by (vm_compute; reflexivity).
  split; [exact H|].
  destruct (build_to_dict_build Stubs.registry Stubs.policy
                                Stubs.policy_engine Stubs.policy_built H)
    as (eng2 & info2 & H2 & -> & _).
  now exists info2.
Defined.

(** * Further properties *)

(** ** Evaluation of rule sets and rule trees *)

Section EvaluationLaws.
Context {Store : Type}.
Implicit Types (request : ApprovalRequest) (w : World Store).

(** X1: a rule set made of two parts is evaluated as the first part and,
    only when that part returns [True], the second part from the state the
    first one leaves; any other outcome of the first part is the outcome
    of the whole. *)
Theorem RuleSet_approve_request_app (a b : RuleSet.t Store) request w :
  RuleSet.approve_request (a ++ b) request w
  = match RuleSet.approve_request a request w with
    | (Returned true, w1) => RuleSet.approve_request b request w1
    | other => other
    end.
Proof.
  revert w. induction a as [|rule a IH]; intros w; simpl; [reflexivity|].
  destruct (RulePlugin.approve_request rule request (store w)) as [[res|ex] st].
  - destruct (negb (opt_truthy res)); [reflexivity | apply IH].
  - destruct (is_Exception ex); [destruct (exn_repr ex)|]; reflexivity.
Qed.

(** X2: a rule tree made of two parts is evaluated as the first part and,
    only when that part returns [False], the second part from the state
    the first one leaves. *)
Theorem RuleTree_approve_request_app (a b : RuleTree.t Store) request w :
  RuleTree.approve_request (a ++ b) request w
  = match RuleTree.approve_request a request w with
    | (Returned false, w1) => RuleTree.approve_request b request w1
    | other => other
    end.
Proof.
  revert w. induction a as [|rset a IH]; intros w; simpl; [reflexivity|].
  destruct (RuleSet.approve_request rset request w) as [[[|]|ex] w1];
    [reflexivity | apply IH | reflexivity].
Qed.

Lemma RuleSet_decides f request (rs : RuleSet.t Store) w :
  (forall rule, In rule rs -> decides f request rule) ->
  RuleSet.approve_request rs request w = (Returned (forallb f rs), w).
Proof.
  revert w. induction rs as [|rule rs IH]; intros w H; simpl; [reflexivity|].
  rewrite (H rule (or_introl eq_refl) (store w)). rewrite set_store_store. simpl.
  destruct (f rule); simpl; [|reflexivity].
  apply IH. intros r Hr. apply H. now right.
Qed.

(** X3: when every rule of a tree only decides (it returns a boolean and
    leaves the store alone), the tree returns the OR over its rule sets of
    the AND of their rules' answers, and leaves the state as it was; so
    does the engine for the tree of the request's type. *)
Theorem RuleTree_decides_or_of_and f request (tree : RuleTree.t Store) w :
  (forall rule, In rule (concat tree) -> decides f request rule) ->
  RuleTree.approve_request tree request w
  = (Returned (existsb (forallb f) tree), w)
  /\ forall eng,
       assoc_get RequestTypes.eqb (request_type request) (RuleEngine.map eng)
       = Some tree ->
       RuleEngine.approve_request eng request w
       = (Returned (Some (existsb (forallb f) tree)), w).
Proof.
  intros H.
  assert (Ht : RuleTree.approve_request tree request w
               = (Returned (existsb (forallb f) tree), w)).
  { revert w. induction tree as [|rs tree IH]; intros w; simpl; [reflexivity|].
    rewrite (RuleSet_decides f)
      by (intros r Hr; apply H; simpl; apply in_or_app; now left).
    destruct (forallb f rs); simpl; [reflexivity|].
    apply IH. intros r Hr. apply H. simpl. apply in_or_app. now right. }
  split; [exact Ht|]. intros eng Hget.
  unfold RuleEngine.approve_request. now rewrite Hget, Ht.
Qed.

Lemma RuleSet_log (rs : RuleSet.t Store) request w :
  exists recs,
    log (snd (RuleSet.approve_request rs request w)) = log w ++ recs
    /\ length recs <= 1
    /\ (fst (RuleSet.approve_request rs request w) <> Returned false -> recs = []).
Proof.
  revert w. induction rs as [|rule rs IH]; intros w; simpl.
  - exists []. rewrite app_nil_r. split; [reflexivity|]. split; [simpl; lia | reflexivity].
  - destruct (RulePlugin.approve_request rule request (store w)) as [[[[|]|]|ex] st];
      simpl.
    + destruct (IH (set_store st w)) as (recs & H1 & H2 & H3). now exists recs.
    + exists []. rewrite app_nil_r. split; [reflexivity|].
      split; [simpl; lia | congruence].
    + eexists. split; [reflexivity|]. split; [simpl; lia | congruence].
    + destruct (is_Exception ex); [destruct (exn_repr ex) as [text|ex']|]; simpl.
      * eexists. split; [reflexivity|]. split; [simpl; lia | congruence].
      * exists []. rewrite app_nil_r. split; [reflexivity|].
        split; [simpl; lia | reflexivity].
      * exists []. rewrite app_nil_r. split; [reflexivity|].
        split; [simpl; lia | reflexivity].
Qed.

(** X4: evaluation only appends to the error log.  A rule set appends at
    most one record, and none unless it returns [False]; a rule tree
    appends at most one record per rule set, and none for a rule set that
    approves. *)
Theorem approve_request_log request w :
  (forall rs : RuleSet.t Store,
      exists recs,
        log (snd (RuleSet.approve_request rs request w)) = log w ++ recs
        /\ length recs <= 1
        /\ (fst (RuleSet.approve_request rs request w) <> Returned false ->
            recs = []))
  /\ (forall tree : RuleTree.t Store,
         exists recs,
           log (snd (RuleTree.approve_request tree request w)) = log w ++ recs
           /\ length recs <= length tree
           /\ (forall rs rest,
                  tree = rs :: rest ->
                  fst (RuleSet.approve_request rs request w) = Returned true ->
                  recs = [])).
Proof.
  split; [intros rs; apply RuleSet_log|].
  intros tree. revert w. induction tree as [|rs tree IH]; intros w.
  - exists []. simpl. rewrite app_nil_r.
    split; [reflexivity|]. split; [lia|]. intros rs rest E. discriminate E.
  - destruct (RuleSet_log rs request w) as (r1 & H1 & H2 & H3). simpl.
    destruct (RuleSet.approve_request rs request w) as [[[|]|ex] w1] eqn:E;
      simpl in *.
    + exists r1. split; [exact H1|]. split; [lia|].
      intros rs' rest _ _. apply H3. discriminate.
    + destruct (IH w1) as (r2 & G1 & G2 & _).
      exists (r1 ++ r2). rewrite G1, H1, app_assoc. split; [reflexivity|].
      split; [rewrite length_app; lia|].
      intros rs' rest Hcons Htrue. injection Hcons as <- <-.
      rewrite E in Htrue. discriminate Htrue.
    + exists r1. split; [exact H1|]. split; [lia|].
      intros rs' rest Hcons Htrue. injection Hcons as <- <-.
      rewrite E in Htrue. discriminate Htrue.
Qed.

Lemma for_each_app {A : Type} (body : A -> Store -> outcome unit * Store)
      (l l' : list A) (st : Store) :
  for_each body (l ++ l') st
  = match for_each body l st with
    | (Returned _, st1) => for_each body l' st1
    | (Raised ex, st1) => (Raised ex, st1)
    end.
Proof.
  revert st. induction l as [|x l IH]; intros st; simpl; [reflexivity|].
  destruct (body x st) as [[u|ex] st1]; [apply IH | reflexivity].
Qed.

Lemma for_each_concat {A : Type} (body : A -> Store -> outcome unit * Store)
      (ll : list (list A)) (st : Store) :
  for_each (for_each body) ll st = for_each body (concat ll) st.
Proof.
  revert st. induction ll as [|l ll IH]; intros st; simpl; [reflexivity|].
  rewrite for_each_app.
  destruct (for_each body l st) as [[u|ex] st1]; [apply IH | reflexivity].
Qed.

Lemma for_each_ext {A : Type} (f g : A -> Store -> outcome unit * Store)
      (l : list A) (st : Store) :
  (forall x st, f x st = g x st) -> for_each f l st = for_each g l st.
Proof.
  intros H. revert st. induction l as [|x l IH]; intros st; simpl; [reflexivity|].
  rewrite H. destruct (g x st) as [[u|ex] st1]; [apply IH | reflexivity].
Qed.

Lemma for_each_map {A B : Type} (body : B -> Store -> outcome unit * Store)
      (f : A -> B) (l : list A) (st : Store) :
  for_each (fun x => body (f x)) l st = for_each body (map f l) st.
Proof.
  revert st. induction l as [|x l IH]; intros st; simpl; [reflexivity|].
  destruct (body (f x) st) as [[u|ex] st1]; [apply IH | reflexivity].
Qed.

(** X5: [RuleEngine.clear_quota] goes through the rules of every rule set
    of every tree, in the order of the map and of the lists, calling
    [clear_quota] on each until one raises: a hook that raises ends the
    call with its exception, and the rules after it are not cleared.  When
    no hook raises, every rule is called, once, in that order; when no rule
    overrides the hook, the call returns and the store is as it was. *)
Theorem RuleEngine_clear_quota_all (eng : RuleEngine.t Store) (p : ProfileInfo)
        (st : Store) :
  RuleEngine.clear_quota eng p st
  = for_each (fun rule => RulePlugin.clear_quota rule p) (engine_rules eng) st
  /\ (forall before rule after st1 ex st2,
         engine_rules eng = before ++ rule :: after ->
         for_each (fun rule => RulePlugin.clear_quota rule p) before st
         = (Returned tt, st1) ->
         RulePlugin.clear_quota rule p st1 = (Raised ex, st2) ->
         RuleEngine.clear_quota eng p st = (Raised ex, st2))
  /\ ((forall rule st1, In rule (engine_rules eng) ->
                        exists st2, RulePlugin.clear_quota rule p st1 = (Returned tt, st2)) ->
      RuleEngine.clear_quota eng p st
      = (Returned tt,
         fold_left (fun st rule => snd (RulePlugin.clear_quota rule p st))
                   (engine_rules eng) st))
  /\ ((forall rule, In rule (engine_rules eng) ->
                    RulePlugin.cls_clear_quota (RulePlugin.cls rule) = None) ->
      RuleEngine.clear_quota eng p st = (Returned tt, st)).
Proof.
  assert (H : RuleEngine.clear_quota eng p st
              = for_each (fun rule => RulePlugin.clear_quota rule p)
                         (engine_rules eng) st).
  { unfold RuleEngine.clear_quota, engine_rules.
    rewrite <- !for_each_concat. rewrite <- for_each_map. reflexivity. }
  split; [exact H|]. rewrite H. clear H. split; [|split].
  - intros before rule after st1 ex st2 -> Hbefore Hrule.
    rewrite for_each_app, Hbefore. simpl. now rewrite Hrule.
  - intros Hall.
    induction (engine_rules eng) as [|rule rules IH] in st, Hall |- *; simpl;
      [reflexivity|].
    destruct (Hall rule st (or_introl eq_refl)) as [st2 ->]. simpl.
    apply IH. intros r st1 Hr. apply Hall. now right.
  - intros Hnone.
    induction (engine_rules eng) as [|rule rules IH] in st, Hnone |- *; simpl;
      [reflexivity|].
    unfold RulePlugin.clear_quota at 1. rewrite (Hnone rule (or_introl eq_refl)).
    apply IH. intros r Hr. apply Hnone. now right.
Qed.

End EvaluationLaws.

Lemma RuleTree_decides_or_of_and_witness :
  (forall rule,
      In rule (concat Deciders.tree) ->
      decides (Deciders.answer (Stubs.request DECRYPT)) (Stubs.request DECRYPT) rule)
  /\ RuleTree.approve_request Deciders.tree (Stubs.request DECRYPT) Stubs.start
     = (Returned true, Stubs.start).
Proof.
  assert (H : forall rule,
             In rule (concat Deciders.tree) ->
             decides (Deciders.answer (Stubs.request DECRYPT))
                     (Stubs.request DECRYPT) rule).
  { intros rule [<-|[<-|[<-|[<-|[]]]]] st; reflexivity. }
  split; [exact H|].
  exact (proj1 (RuleTree_decides_or_of_and
                  (Deciders.answer (Stubs.request DECRYPT)) (Stubs.request DECRYPT)
                  Deciders.tree Stubs.start H)).
Defined.

Lemma approve_request_log_witness :
  exists recs,
    log (snd (RuleSet.approve_request
                [Stubs.inst Stubs.allow; Stubs.inst Stubs.unknown; Stubs.inst Stubs.faulty]
                (Stubs.request SEARCH) Stubs.start))
    = log Stubs.start ++ recs
    /\ length recs <= 1
    /\ (fst (RuleSet.approve_request
               [Stubs.inst Stubs.allow; Stubs.inst Stubs.unknown; Stubs.inst Stubs.faulty]
               (Stubs.request SEARCH) Stubs.start)
        <> Returned false -> recs = []).
Proof.
  exact (proj1 (approve_request_log (Stubs.request SEARCH) Stubs.start)
               [Stubs.inst Stubs.allow; Stubs.inst Stubs.unknown; Stubs.inst Stubs.faulty]).
Defined.

Lemma RuleEngine_clear_quota_all_witness :
  (forall rule,
      In rule (engine_rules Stubs.policy_engine) ->
      RulePlugin.cls_clear_quota (RulePlugin.cls rule) = None)
  /\ RuleEngine.clear_quota Stubs.policy_engine Stubs.someone ["allow"; "deny"]
     = (Returned tt, ["allow"; "deny"]).
Proof.
  assert (H : forall rule,
             In rule (engine_rules Stubs.policy_engine) ->
             RulePlugin.cls_clear_quota (RulePlugin.cls rule) = None).
  { intros rule [<-|[<-|[<-|[<-|[]]]]]; reflexivity. }
  split; [exact H|].
  exact (proj2 (proj2 (proj2 (RuleEngine_clear_quota_all
                                Stubs.policy_engine Stubs.someone
                                ["allow"; "deny"]))) H).
Defined.

(** A rule that overrides the hook is reached, in a second rule set of a
    second tree. *)
Example clear_quota_reaches_metered :
  RuleEngine.clear_quota
    {| RuleEngine.map :=
         [(DECRYPT, [[Stubs.inst Stubs.allow]]);
          (SEARCH, [[Stubs.inst Stubs.deny];
                    [Stubs.inst Stubs.allow; Stubs.inst Deciders.metered]])] |}
    Stubs.someone ["allow"; "metered"; "deny"; "metered"]
  = (Returned tt, ["allow"; "deny"]).
Proof. reflexivity. Qed.

(** A hook that raises ends the call: the rule after it keeps its quota. *)
Example clear_quota_stops_at_stuck :
  RuleEngine.clear_quota
    {| RuleEngine.map :=
         [(DECRYPT, [[Stubs.inst Deciders.stuck]]);
          (SEARCH, [[Stubs.inst Deciders.metered]])] |}
    Stubs.someone ["metered"]
  = (Raised Stubs.value_error, ["metered"]).
Proof. reflexivity. Qed.

(** ** Request type names *)

(** X6: a request type and its name go back and forth: [RequestType(s)]
    gives the member whose value is [s], the members have distinct values,
    and a string that is no member's value raises [ValueError]. *)
Theorem RequestType_value_round_trip :
  (forall r, RequestTypes.of_value (RequestTypes.value r) = Ok r)
  /\ (forall s r, RequestTypes.of_value s = Ok r -> RequestTypes.value r = s)
  /\ (forall a b, RequestTypes.value a = RequestTypes.value b -> a = b)
  /\ (forall s, (forall r, RequestTypes.value r <> s) ->
                RequestTypes.of_value s = Err ValueError).
Proof.
  split; [exact of_value_value|]. split; [|split; [exact value_inj|]].
  - intros s r. unfold RequestTypes.of_value.
    destruct (find _ RequestTypes.all) as [r'|] eqn:E; [|discriminate].
    intros [= <-]. apply find_some in E as [_ E]. now apply String.eqb_eq in E.
  - intros s H. unfold RequestTypes.of_value.
    destruct (find _ RequestTypes.all) as [r'|] eqn:E; [|reflexivity].
    apply find_some in E as [_ E]. apply String.eqb_eq in E. now apply H in E.
Qed.

Lemma RequestType_value_round_trip_witness :
  RequestTypes.of_value "rename" = Ok RENAME_FILE
  /\ RequestTypes.value RENAME_FILE = "rename"
  /\ (forall r, RequestTypes.value r <> "rename_file")
  /\ RequestTypes.of_value "rename_file" = Err ValueError.
Proof.
  assert (H : forall r, RequestTypes.value r <> "rename_file")
    by (intros []; discriminate).
  split; [reflexivity|].
  split; [exact (proj1 (proj2 RequestType_value_round_trip) "rename" RENAME_FILE eq_refl)|].
  split; [exact H|].
  exact (proj2 (proj2 (proj2 RequestType_value_round_trip)) "rename_file" H).
Defined.

(** ** The generator over a load *)

Lemma py_eqb_refl (v : pyval) : hashable v = true -> py_eqb v v = true.
Proof.
  destruct v as [|b|z|s|l|d]; simpl; try discriminate; intros _.
  - reflexivity.
  - now destruct b.
  - apply Z.eqb_refl.
  - apply String.eqb_refl.
Qed.

Lemma inject_rule_id_counted rgen ent rgen' ent' :
  RuleIdGenerator.inject_rule_id rgen ent = Ok (rgen', ent') ->
  assoc_mem py_eqb (dict_get_or_None "rule_id" ent') (RuleIdGenerator._seen rgen')
  = true.
Proof.
  intros H. destruct (truthy (dict_get_or_None "rule_id" ent)) eqn:E.
  - rewrite (inject_rule_id_truthy _ _ E) in H.
    destruct (hashable _) eqn:Eh; [|discriminate]. injection H as <- <-. simpl.
    apply assoc_mem_set_same. now apply py_eqb_refl.
  - rewrite (inject_rule_id_falsy _ _ E) in H. injection H as <- <-. simpl.
    unfold dict_get_or_None. rewrite dict_get_set_same.
    apply assoc_mem_set_same. simpl. apply String.eqb_refl.
Qed.

(** X11: over a load the generator counts every entry and records every
    rule id: after [n] entries [_rule_seq] has grown by [n] (entries that
    came with a rule id included), what [_seen] held is still there, and
    the rule id of every entry processed is in [_seen]. *)
Theorem inject_all_records ents : forall rgen rgen' ents',
  inject_all rgen ents = Ok (rgen', ents') ->
  length ents' = length ents
  /\ RuleIdGenerator._rule_seq rgen' = RuleIdGenerator._rule_seq rgen + length ents
  /\ (forall k, assoc_mem py_eqb k (RuleIdGenerator._seen rgen) = true ->
                assoc_mem py_eqb k (RuleIdGenerator._seen rgen') = true)
  /\ Forall (fun e' => assoc_mem py_eqb (dict_get_or_None "rule_id" e')
                                 (RuleIdGenerator._seen rgen') = true) ents'.
Proof.
  induction ents as [|ent ents IH]; intros rgen rgen' ents' H.
  - injection H as <- <-. split; [reflexivity|]. split; [simpl; lia|].
    split; [auto | constructor].
  - pose proof (inject_all_rule_seq _ _ _ _ H) as Hseq.
    pose proof (fun k Hk => inject_all_seen _ _ _ _ k Hk H) as Hseen.
    apply inject_all_cons in H as (rgen1 & ent' & rest' & H1 & H2 & ->).
    destruct (IH _ _ _ H2) as (Hlen & _ & _ & Hall).
    split; [simpl; now rewrite Hlen|]. split; [exact Hseq|]. split; [exact Hseen|].
    constructor; [|exact Hall].
    apply (inject_all_seen _ _ _ _ _ (inject_rule_id_counted _ _ _ _ H1) H2).
Qed.

Lemma inject_all_records_witness :
  inject_all RuleIdGenerator.init [Stubs.geo_entry; Stubs.named_entry]
  = Ok ({| RuleIdGenerator._seen := [(PStr "9e9051585ff2a312a064fd6a9b2bc314", 1);
                                     (PStr "office-hours", 1)];
           RuleIdGenerator._rule_seq := 2 |},
        [Stubs.saved_geo_entry; Stubs.named_entry])
  /\ Forall (fun e' => assoc_mem py_eqb (dict_get_or_None "rule_id" e')
                         [(PStr "9e9051585ff2a312a064fd6a9b2bc314", 1);
                          (PStr "office-hours", 1)] = true)
            [Stubs.saved_geo_entry; Stubs.named_entry].
Proof.
  assert (H : inject_all RuleIdGenerator.init [Stubs.geo_entry; Stubs.named_entry]
              = Ok ({| RuleIdGenerator._seen :=
                         [(PStr "9e9051585ff2a312a064fd6a9b2bc314", 1);
                          (PStr "office-hours", 1)];
                       RuleIdGenerator._rule_seq := 2 |},
                    [Stubs.saved_geo_entry; Stubs.named_entry]))
    by (vm_compute; reflexivity).
  split; [exact H|].
  exact (proj2 (proj2 (proj2 (inject_all_records _ _ _ _ H)))).
Defined.

(** X12: an entry that has been through [inject_rule_id] is settled: a
    later call, from any generator, succeeds and leaves it as it is. *)
Theorem inject_rule_id_settles rgen ent rgen1 ent1 :
  RuleIdGenerator.inject_rule_id rgen ent = Ok (rgen1, ent1) ->
  forall rgen2, exists rgen3,
    RuleIdGenerator.inject_rule_id rgen2 ent1 = Ok (rgen3, ent1).
Proof.
  intros H rgen2.
  destruct (inject_rule_id_post _ _ _ _ H) as (Ht & Hh & _).
  rewrite (inject_rule_id_truthy _ _ Ht), Hh. eauto.
Qed.

Lemma inject_rule_id_settles_witness :
  RuleIdGenerator.inject_rule_id RuleIdGenerator.init Stubs.geo_entry
  = Ok ({| RuleIdGenerator._seen := [(PStr "9e9051585ff2a312a064fd6a9b2bc314", 1)];
           RuleIdGenerator._rule_seq := 1 |},
        Stubs.saved_geo_entry)
  /\ exists rgen3,
      RuleIdGenerator.inject_rule_id RuleIdGenerator.init Stubs.saved_geo_entry
      = Ok (rgen3, Stubs.saved_geo_entry).
Proof.
  assert (H : RuleIdGenerator.inject_rule_id RuleIdGenerator.init Stubs.geo_entry
              = Ok ({| RuleIdGenerator._seen :=
                         [(PStr "9e9051585ff2a312a064fd6a9b2bc314", 1)];
                       RuleIdGenerator._rule_seq := 1 |},
                    Stubs.saved_geo_entry))
    by (vm_compute; reflexivity).
  split; [exact H|].
  exact (inject_rule_id_settles _ _ _ _ H RuleIdGenerator.init).
Defined.

(** ** Which policies build, and what is built *)

Section BuildLaws.
Context {Store : Type}.
Variable registry : list (RulePlugin.plugin_class Store).

Lemma RulePlugin_from_dict_rule data (p : RulePlugin.t Store) data' :
  RulePlugin.from_dict registry data = Ok (p, data') ->
  dict_get "rule" data = Some (PStr (RulePlugin.name (RulePlugin.cls p)))
  /\ find (fun pc => String.eqb (RulePlugin.plugin_name pc)
                                (RulePlugin.name (RulePlugin.cls p))) registry
     = Some (RulePlugin.RuleClass (RulePlugin.cls p)).
Proof.
  intros H. destruct (RulePlugin_from_dict_ok _ _ _ _ H) as (_ & _ & Hfind).
  split; [|exact Hfind]. unfold RulePlugin.from_dict in H.
  destruct (dict_get "rule" data) as [pname|]; [|discriminate].
  destruct pname as [| | |n| |]; simpl in H; try discriminate.
  destruct (find _ registry) as [[rc|n']|] eqn:Efind; simpl in H; try discriminate.
  injection H as <- _. simpl.
  destruct (find_some _ _ Efind) as [_ Hname]. simpl in Hname.
  apply String.eqb_eq in Hname. now rewrite Hname.
Qed.

Lemma inject_rule_id_keeps_rule rgen ent rgen1 ent1 :
  RuleIdGenerator.inject_rule_id rgen ent = Ok (rgen1, ent1) ->
  dict_get "rule" ent1 = dict_get "rule" ent.
Proof.
  intros H. destruct (inject_rule_id_post _ _ _ _ H) as (_ & _ & _ & Hother & _).
  apply Hother. discriminate.
Qed.

Lemma inject_rule_id_ok_hashable rgen ent rgen1 ent1 :
  RuleIdGenerator.inject_rule_id rgen ent = Ok (rgen1, ent1) ->
  truthy (dict_get_or_None "rule_id" ent) = true ->
  hashable (dict_get_or_None "rule_id" ent) = true.
Proof.
  intros H E. rewrite (inject_rule_id_truthy _ _ E) in H.
  now destruct (hashable _).
Qed.

Lemma RuleSet_from_list_built ruledata : forall rgen (rs : RuleSet.t Store) rgen' out,
  RuleSet.from_list registry ruledata rgen = Ok (rs, rgen', out) ->
  Forall2 built_from ruledata rs /\ Forall (entry_ok registry) ruledata.
Proof.
  induction ruledata as [|ent rest IH]; intros rgen rs rgen' out H.
  - injection H as <- _ _. split; constructor.
  - apply RuleSet_from_list_cons in H
      as (rgen1 & ent1 & p & lst & rest' & H1 & H2 & H3 & -> & ->).
    destruct (IH _ _ _ _ H3) as [Hb Hok].
    destruct (RulePlugin_from_dict_rule _ _ _ H2) as [Hrule Hfind].
    destruct (RulePlugin_from_dict_ok _ _ _ _ H2) as (_ & Hargs & _).
    destruct (inject_rule_id_post _ _ _ _ H1) as (Ht & _).
    rewrite (inject_rule_id_keeps_rule _ _ _ _ H1) in Hrule.
    split; constructor; auto.
    + split; [exact Hrule|]. rewrite Hargs. split.
      * now apply (entry_built_inject _ _ _ _ H1).
      * now rewrite dict_get_or_None_del_rule.
    + split; [eauto|]. now apply (inject_rule_id_ok_hashable _ _ _ _ H1).
Qed.

Lemma RuleTree_from_list_built ruledefs : forall rgen (tree : RuleTree.t Store) rgen' out,
  RuleTree.from_list registry ruledefs rgen = Ok (tree, rgen', out) ->
  Forall2 (Forall2 built_from) ruledefs tree
  /\ Forall (Forall (entry_ok registry)) ruledefs.
Proof.
  induction ruledefs as [|ent rest IH]; intros rgen tree rgen' out H.
  - injection H as <- _ _. split; constructor.
  - simpl in H.
    destruct (RuleSet.from_list registry ent rgen) as [[[rset rgen1] ent']|] eqn:E1;
      [|discriminate]. simpl in H.
    destruct (RuleTree.from_list registry rest rgen1) as [[[ini rgen2] rest']|] eqn:E2;
      [|discriminate]. simpl in H. injection H as <- _ _.
    destruct (RuleSet_from_list_built _ _ _ _ _ E1) as [Hb1 Hok1].
    destruct (IH _ _ _ _ E2) as [Hb2 Hok2].
    split; constructor; auto.
Qed.

Lemma RuleEngine_from_items_config_ok items : forall rgen acc rule_map rgen' out,
  RuleEngine.from_items registry items rgen acc = Ok (rule_map, rgen', out) ->
  config_ok registry items.
Proof.
  induction items as [|[rtype treedef] rest IH]; intros rgen acc rule_map rgen' out H.
  - constructor.
  - simpl in H.
    destruct (RequestTypes.of_value rtype) as [r|] eqn:Er; [|discriminate].
    simpl in H.
    destruct (RuleTree.from_list registry treedef rgen)
      as [[[tree rgen1] treedef']|] eqn:E1; [|discriminate]. simpl in H.
    destruct (RuleEngine.from_items registry rest rgen1
                (assoc_set RequestTypes.eqb r tree acc))
      as [[[rule_map' rgen2] rest']|] eqn:E2; [|discriminate].
    constructor.
    + split; [simpl; eauto|]. simpl.
      now destruct (RuleTree_from_list_built _ _ _ _ _ E1).
    + exact (IH _ _ _ _ _ E2).
Qed.

(** X7: [RuleEngine.from_dict] builds an engine only from a policy whose
    keys are all names of request types and whose entries all have a
    ["rule"] that names a rule class of the registry, and no rule id that
    is true and cannot be hashed: on a policy that fails one of these it
    raises. *)
Theorem from_dict_builds_only_ok info (eng : RuleEngine.t Store) info' :
  RuleEngine.from_dict registry info = Ok (eng, info') ->
  config_ok registry info.
Proof.
  unfold RuleEngine.from_dict. intros H.
  destruct (RuleEngine.from_items registry info RuleIdGenerator.init [])
    as [[[rule_map rgen] out]|] eqn:E; [|discriminate].
  exact (RuleEngine_from_items_config_ok _ _ _ _ _ _ E).
Qed.


End BuildLaws.

Section AssocKeys.
Context {K V : Type} (eqb : K -> K -> bool).
Hypothesis eqb_eq : forall a b, eqb a b = true <-> a = b.

Lemma assoc_set_keys_iff k (v : V) d x :
  In x (map fst (assoc_set eqb k v d)) <-> x = k \/ In x (map fst d).
Proof.
  split; [apply assoc_set_keys_In|].
  induction d as [|[k' v'] d IH]; simpl.
  - intros [->|[]]. now left.
  - destruct (eqb k k') eqn:E; simpl.
    + apply eqb_eq in E as ->. intros [->|[<-|H]]; auto.
    + intros [->|[<-|H]]; auto.
Qed.

Lemma assoc_get_of_In k (d : list (K * V)) :
  In k (map fst d) -> exists v, assoc_get eqb k d = Some v.
Proof.
  induction d as [|[k' v'] d IH]; simpl; [tauto|].
  destruct (eqb k k') eqn:E; [eauto|].
  intros [<-|H]; [|auto]. rewrite (proj2 (eqb_eq k' k') eq_refl) in E. discriminate.
Qed.
End AssocKeys.

Section EngineLaws.
Context {Store : Type}.
Variable registry : list (RulePlugin.plugin_class Store).

Lemma of_value_Ok_iff s r : RequestTypes.of_value s = Ok r <-> RequestTypes.value r = s.
Proof.
  split.
  - unfold RequestTypes.of_value.
    destruct (find _ RequestTypes.all) as [r'|] eqn:E; [|discriminate].
    intros [= <-]. apply find_some in E as [_ E]. now apply String.eqb_eq in E.
  - intros <-. apply of_value_value.
Qed.

Lemma RuleEngine_from_items_keys items :
  forall rgen acc (rule_map : list (RequestType * RuleTree.t Store)) rgen' out,
  RuleEngine.from_items registry items rgen acc = Ok (rule_map, rgen', out) ->
  forall r, In r (map fst rule_map)
            <-> In r (map fst acc) \/ In (RequestTypes.value r) (map fst items).
Proof.
  induction items as [|[rtype treedef] rest IH]; intros rgen acc rule_map rgen' out H r.
  - injection H as <- _ _. simpl. tauto.
  - simpl in H.
    destruct (RequestTypes.of_value rtype) as [r0|] eqn:Er; [|discriminate].
    simpl in H.
    destruct (RuleTree.from_list registry treedef rgen)
      as [[[tree rgen1] treedef']|] eqn:E1; [|discriminate]. simpl in H.
    destruct (RuleEngine.from_items registry rest rgen1
                (assoc_set RequestTypes.eqb r0 tree acc))
      as [[[rule_map' rgen2] rest']|] eqn:E2; [|discriminate].
    simpl in H. injection H as <- _ _.
    rewrite (IH _ _ _ _ _ E2 r), (assoc_set_keys_iff _ RequestTypes_eqb_eq).
    apply of_value_Ok_iff in Er. simpl. subst rtype. split.
    + intros [[->|H]|H]; auto.
    + intros [H|[H|H]]; auto. apply value_inj in H. auto.
Qed.

(** X8: an engine built from a policy has a tree for exactly the request
    types the policy names: a request of another type gets [None] and calls
    no rule, and a request of a named type never gets [None]. *)
Theorem from_dict_trees_for_named_types info (eng : RuleEngine.t Store) info' :
  RuleEngine.from_dict registry info = Ok (eng, info') ->
  forall request w,
    (~ In (RequestTypes.value (request_type request)) (map fst info) ->
     RuleEngine.approve_request eng request w = (Returned None, w))
    /\ (In (RequestTypes.value (request_type request)) (map fst info) ->
        fst (RuleEngine.approve_request eng request w) <> Returned None).
Proof.
  unfold RuleEngine.from_dict.
  destruct (RuleEngine.from_items registry info RuleIdGenerator.init [])
    as [[[rule_map rgen] out]|] eqn:E; [|discriminate]. simpl.
  intros [= <- _] request w.
  pose proof (RuleEngine_from_items_keys _ _ _ _ _ _ E (request_type request)) as Hk.
  simpl in Hk. unfold RuleEngine.approve_request. simpl. split; intros H.
  - rewrite (assoc_get_not_In _ RequestTypes_eqb_eq); [reflexivity|]. tauto.
  - destruct (assoc_get_of_In _ RequestTypes_eqb_eq (request_type request) rule_map)
      as [tree ->]; [tauto|].
    destruct (RuleTree.approve_request tree request w) as [[res|ex] w']; discriminate.
Qed.







End EngineLaws.


(** *** Concrete builds *)

Lemma from_dict_builds_only_ok_witness :
  RuleEngine.from_dict Stubs.registry Stubs.policy
  = Ok (Stubs.policy_engine, Stubs.policy_built)
  /\ config_ok Stubs.registry Stubs.policy.
Proof.
  assert (H : RuleEngine.from_dict Stubs.registry Stubs.policy
              = Ok (Stubs.policy_engine, Stubs.policy_built))
    by (vm_compute; reflexivity).
  split; [exact H|].
  exact (from_dict_builds_only_ok Stubs.registry Stubs.policy
                                  Stubs.policy_engine Stubs.policy_built H).
Defined.

(** A policy that names a plugin of another kind does not build. *)
Example detector_is_no_rule :
  RuleEngine.from_dict Stubs.registry
    [("decrypt", [[[("rule", PStr "subprocess-detector")]]])]
  = Err (AssertionError "Rule plugins must derive from RulePlugin").
Proof. vm_compute. reflexivity. Qed.

Lemma from_dict_trees_for_named_types_witness :
  RuleEngine.from_dict Stubs.registry Stubs.policy
  = Ok (Stubs.policy_engine, Stubs.policy_built)
  /\ ~ In (RequestTypes.value (request_type (Stubs.request RENAME_FILE)))
          (map fst Stubs.policy)
  /\ RuleEngine.approve_request Stubs.policy_engine (Stubs.request RENAME_FILE)
                                Stubs.start
     = (Returned None, Stubs.start).
Proof.
  assert (H : RuleEngine.from_dict Stubs.registry Stubs.policy
              = Ok (Stubs.policy_engine, Stubs.policy_built))
    by (vm_compute; reflexivity).
  assert (Hn : ~ In (RequestTypes.value (request_type (Stubs.request RENAME_FILE)))
                    (map fst Stubs.policy)).
  { intros [E|[E|[]]]; discriminate E. }
  split; [exact H|]. split; [exact Hn|].
  exact (proj1 (from_dict_trees_for_named_types
                  Stubs.registry Stubs.policy Stubs.policy_engine Stubs.policy_built
                  H (Stubs.request RENAME_FILE) Stubs.start) Hn).
Defined.



